(** * CubeIsoFinder: a shallow embedding of [cube_parser.cpp]

    The C++ sources work on [double], [int] and [size_t].  In this
    development

    - the numeric functions are given twice.  In the main model a [double]
      is an exact rational ([Q]): sums, products and quotients are exact,
      and there is no rounding, overflow, underflow or NaN.  The general
      laws are proved on this model; where a law depends on the absence of
      overflow or underflow, its statement carries a bound on the grid that
      keeps the binary64 computation inside the range of [double].  In the
      module [Binary64] the same functions are written on the primitive
      binary64 floats, operation for operation; they are run on concrete
      inputs, among them the inputs where rounding or overflow makes the
      program depart from the exact laws, and [detectAngstrom] with its
      [std::sqrt] lives there;
    - [std::sort] is an insertion sort driven by the same comparator; the
      order it gives to elements that compare equal is one of the orders
      [std::sort] may give;
    - an [int] is a [Z] inside the 32-bit two's-complement range;
    - a [size_t] is a [Z] reduced modulo [2^64];
    - a thrown [std::runtime_error] is a value of type [error], and a
      function that may throw returns a [result].  Exceptions of the
      allocator ([std::length_error], [std::bad_alloc]) are outside the
      model. *)

From Stdlib Require Import List Bool Arith ZArith QArith Lia Lqa.
From Stdlib Require Import Ascii String Permutation Sorted.
From Stdlib Require Import DecimalString Qabs PrimFloat.
Import ListNotations.

Local Open Scope Q_scope.

(* ================================================================== *)
(** * Part I: definitions *)
(* ================================================================== *)

(** ** Errors and results *)

(** The exceptions of the program, one constructor per [throw] site. *)
Inductive error : Type :=
| IOError (filename : string)
| ParseError_AtomsOrigin
| ParseError_Axis (i : nat)
| CountMismatchError (actual expected : Z)
| NoMatchingSignError
| NoMatchingPointsError
| ZeroTotalError_Density
| ZeroTotalError_Orbital.

Inductive result (A : Type) : Type :=
| Ok (a : A)
| Err (e : error).
Arguments Ok {A} a.
Arguments Err {A} e.

Definition bind {A B : Type} (r : result A) (k : A -> result B) : result B :=
  match r with
  | Ok a => k a
  | Err e => Err e
  end.

Definition result_map {A B : Type} (f : A -> B) (r : result A) : result B :=
  bind r (fun a => Ok (f a)).

Notation "x <- r ;; k" := (bind r (fun x => k))
  (at level 61, r at next level, right associativity).

(** ** Comparisons on [double] *)

Definition Qltb (x y : Q) : bool := negb (Qle_bool y x).
Definition Qgtb (x y : Q) : bool := Qltb y x.
Definition Qleb (x y : Q) : bool := Qle_bool x y.
Definition Qgeb (x y : Q) : bool := Qle_bool y x.

(** ** [std::sort]

    [std::sort(first, last, comp)] is modelled by insertion sort driven by
    the comparator alone.  The standard leaves the relative order of
    equivalent elements unspecified; the model keeps their input order. *)
Section Sort.
Context {A : Type}.
Variable comp : A -> A -> bool.

Fixpoint insert_by (x : A) (l : list A) : list A :=
  match l with
  | [] => [x]
  | y :: t => if comp y x then y :: insert_by x t else x :: y :: t
  end.

Definition sort_by (l : list A) : list A :=
  fold_right insert_by [] l.

(** [before x y]: the comparator does not put [y] strictly before [x]. *)
Definition before (x y : A) : Prop := comp y x = false.
End Sort.

(** ** Integration, density mode *)

(** The sign filter of both density functions:
    [if (positive && v > 0) ... else if (!positive && v < 0) ...]. *)
Definition keep (positive : bool) (v : Q) : bool :=
  if positive && Qgtb v 0 then true
  else if negb positive && Qltb v 0 then true
  else false.

(** [for (double v : l) total += v;] *)
Definition sumList (l : list Q) : Q := fold_left Qplus l 0.

(** The accumulation loop: add [v] to the running sum, return [v] as soon
    as [cross integ target] holds. *)
Fixpoint accumulate (cross : Q -> Q -> bool) (target : Q)
         (l : list Q) (integ : Q) : option Q :=
  match l with
  | [] => None
  | v :: t =>
      let integ' := integ + v in
      if cross integ' target then Some v else accumulate cross target t integ'
  end.

Definition computeIsovalueFromPercentage_Density
           (values : list Q) (percent : Q) (positive : bool) : result Q :=
  let filtered := filter (keep positive) values in
  match filtered with
  | [] => Err NoMatchingSignError
  | _ :: _ =>
      let total := sumList filtered in
      let target := (percent / 100) * total in
      let sorted := if positive then sort_by Qgtb filtered
                    else sort_by Qltb filtered in
      let hit := if positive then accumulate Qgeb target sorted 0
                 else accumulate Qleb target sorted 0 in
      match hit with
      | Some v => Ok v
      | None => Ok (last sorted 0)
      end
  end.

(** One iteration of the loop of [computePercentageFromIsovalue_Density]
    on the pair [(total, integ)]. *)
Definition pctDensity_step (isovalue : Q) (positive : bool)
           (st : Q * Q) (v : Q) : Q * Q :=
  let '(total, integ) := st in
  if positive && Qgtb v 0 then
    (total + v, if Qgeb v isovalue then integ + v else integ)
  else if negb positive && Qltb v 0 then
    (total + v, if Qleb v isovalue then integ + v else integ)
  else (total, integ).

Definition computePercentageFromIsovalue_Density
           (values : list Q) (isovalue : Q) (positive : bool) : result Q :=
  let '(total, integ) :=
    fold_left (pctDensity_step isovalue positive) values (0, 0) in
  if Qeq_bool total 0 then Err ZeroTotalError_Density
  else Ok ((integ / total) * 100).

(** The value the positive branch of
    [computeIsovalueFromPercentage_Density] returns from its sorted list:
    the first crossing, or [back()] when the loop runs to the end. *)
Definition pickPositive (target : Q) (sorted : list Q) (integ : Q) : Q :=
  match accumulate Qgeb target sorted integ with
  | Some v => v
  | None => last sorted 0
  end.

(** A list in the order [std::sort] with [std::greater] leaves it in. *)
Definition descending : list Q -> Prop := StronglySorted (fun x y => y <= x).

(** The sum of the entries of [l] that are at least [r]: what the positive
    branch of [computePercentageFromIsovalue_Density] adds up in [integ]. *)
Definition enclosed (r : Q) (l : list Q) : Q :=
  sumList (filter (fun v => Qgeb v r) l).

(** What the density loop maintains: the enclosed sum lies between zero and
    the total, on the side of the requested sign. *)
Definition between (positive : bool) (st : Q * Q) : Prop :=
  if positive then 0 <= snd st /\ snd st <= fst st
  else fst st <= snd st /\ snd st <= 0.

(** ** Integration, orbital mode *)

Record OrbitalPoint : Type := mkOrbitalPoint {
  density : Q;   (* v^2 *)
  value : Q;     (* original grid value v *)
  index : nat    (* original grid index in the cube file *)
}.

(** [for (size_t i = 0; i < values.size(); i++) points.push_back({v*v, v, i})],
    started at index [i]. *)
Fixpoint makePoints (i : nat) (values : list Q) : list OrbitalPoint :=
  match values with
  | [] => []
  | v :: t => mkOrbitalPoint (v * v) v i :: makePoints (S i) t
  end.

(** The comparator of the orbital sort: [a.density > b.density]. *)
Definition byDensityDesc (a b : OrbitalPoint) : bool :=
  Qgtb (density a) (density b).

Fixpoint accumulatePoints (target : Q) (l : list OrbitalPoint) (integ : Q)
  : option OrbitalPoint :=
  match l with
  | [] => None
  | p :: t =>
      let integ' := integ + density p in
      if Qgeb integ' target then Some p else accumulatePoints target t integ'
  end.

Definition computeIsovalueFromPercentage_Orbital
           (values : list Q) (percent : Q) (positive : bool) : result Q :=
  let points := makePoints 0 values in
  match points with
  | [] => Err NoMatchingPointsError
  | p0 :: _ =>
      let total := fold_left (fun acc p => acc + density p) points 0 in
      let target := (percent / 100) * total in
      let sorted := sort_by byDensityDesc points in
      match accumulatePoints target sorted 0 with
      | Some p => Ok (value p)
      | None => Ok (value (last sorted p0))
      end
  end.

Definition pctOrbital_step (thresholdDensity : Q) (st : Q * Q) (v : Q)
  : Q * Q :=
  let '(total, integ) := st in
  let d := v * v in
  (total + d, if Qgeb d thresholdDensity then integ + d else integ).

Definition computePercentageFromIsovalue_Orbital
           (values : list Q) (isovalue : Q) (positive : bool) : result Q :=
  let thresholdDensity := isovalue * isovalue in
  let '(total, integ) :=
    fold_left (pctOrbital_step thresholdDensity) values (0, 0) in
  if Qeq_bool total 0 then Err ZeroTotalError_Orbital
  else Ok ((integ / total) * 100).

(** The image of a grid point when the grid value is negated. *)
Definition negPoint (p : OrbitalPoint) : OrbitalPoint :=
  mkOrbitalPoint (density p) (- value p) (index p).

(** ** The density percentage as two sums *)

(** The side of [isovalue] the requested sign encloses: [v >= isovalue] on
    the positive branch, [v <= isovalue] on the negative one. *)
Definition beyond (positive : bool) (isovalue v : Q) : bool :=
  if positive then Qgeb v isovalue else Qleb v isovalue.

(** The sum of the values of the requested sign. *)
Definition totalOf (positive : bool) (values : list Q) : Q :=
  sumList (filter (keep positive) values).

(** The sum of the values of the requested sign that lie beyond
    [isovalue]. *)
Definition enclosedOf (positive : bool) (isovalue : Q) (values : list Q) : Q :=
  sumList (filter (fun v => keep positive v && beyond positive isovalue v)
                  values).

(** Two results agree: the same error, or numbers that are equal as
    rationals. *)
Definition result_Qeq (r1 r2 : result Q) : Prop :=
  match r1, r2 with
  | Ok a, Ok b => a == b
  | Err e1, Err e2 => e1 = e2
  | _, _ => False
  end.

(** The orbital densities of a grid: the squares of its values. *)
Definition densities (values : list Q) : list Q :=
  map (fun v => v * v) values.

(** ** Unit conversion *)

Definition BOHR_TO_ANGSTROM : Q := 529177210544 # 1000000000000.

Definition convertDensity (nativeDensity : Q) (nativeIsAngstrom : bool) : Q :=
  let bohr3_in_angstrom3 := BOHR_TO_ANGSTROM ^ 3 in
  nativeDensity / bohr3_in_angstrom3.

(** ** [std::string] helpers *)

Local Open Scope string_scope.

(** Membership in the set [" \t\n\r\f\v"] of [trim]; the same characters
    are the white space of the "C" locale that [operator>>] skips. *)
Definition isWs (c : ascii) : bool :=
  let n := nat_of_ascii c in
  ((n =? 32) || (n =? 9) || (n =? 10) || (n =? 13) || (n =? 12)
   || (n =? 11))%nat.

(** [s.find_first_not_of(ws)], with [None] for [npos]. *)
Fixpoint find_first_not_of (s : string) : option nat :=
  match s with
  | EmptyString => None
  | String c t => if isWs c then option_map S (find_first_not_of t) else Some O
  end.

(** [s.find_last_not_of(ws)], with [None] for [npos]. *)
Fixpoint find_last_not_of (s : string) : option nat :=
  match s with
  | EmptyString => None
  | String c t =>
      match find_last_not_of t with
      | Some k => Some (S k)
      | None => if isWs c then None else Some O
      end
  end.

Definition trim (s : string) : string :=
  match find_first_not_of s with
  | None => ""
  | Some start =>
      match find_last_not_of s with
      | Some e => substring start (e - start + 1) s
      | None => substring start (String.length s - start) s
      end
  end.

(** [std::tolower] in the "C" locale. *)
Definition tolower (c : ascii) : ascii :=
  let n := nat_of_ascii c in
  if ((65 <=? n) && (n <=? 90))%nat then ascii_of_nat (n + 32) else c.

(** The predicate of [icontains]:
    [std::tolower(ch1) == std::tolower(ch2)]. *)
Definition eq_nocase (ch1 ch2 : ascii) : bool :=
  Ascii.eqb (tolower ch1) (tolower ch2).

(** [substr] matches at the start of [data]. *)
Fixpoint matchesAt (data substr : string) : bool :=
  match substr, data with
  | EmptyString, _ => true
  | String c2 t2, String c1 t1 => eq_nocase c1 c2 && matchesAt t1 t2
  | String _ _, EmptyString => false
  end.

(** [std::search]: the offset of the first match, or the length of [data]
    (the end iterator) when there is none. *)
Fixpoint search (data substr : string) : nat :=
  match data with
  | EmptyString => O
  | String _ t => if matchesAt data substr then O else S (search t substr)
  end.

(** [it != data.end()]. *)
Definition icontains (data substr : string) : bool :=
  negb (search data substr =? String.length data)%nat.

(** [lower s]: every character through [tolower]. *)
Fixpoint lower (s : string) : string :=
  match s with
  | EmptyString => EmptyString
  | String c t => String (tolower c) (lower t)
  end.

(** The specification's "contains, case-insensitively": some substring of
    [data] equals [substr] once both are lower-cased. *)
Definition containsNoCase (data substr : string) : Prop :=
  exists pre mid post,
    data = pre ++ mid ++ post /\ lower mid = lower substr.

(** ** The cube file structures *)

Record CubeHeader : Type := mkCubeHeader {
  comment1 : string;
  comment2 : string;
  numAtoms : Z;                  (* int *)
  origin : list Q;               (* double[3] *)
  dims : list Z;                 (* int[3] *)
  axisVectors : list (list Q);   (* double[3][4], rows [n, ax, ay, az] *)
  calcType : string;             (* "Q-Chem", "ORCA" or "Generic" *)
  isOrbital : bool
}.

Record CubeData : Type := mkCubeData {
  header : CubeHeader;
  values : list Q
}.

(** [header.axisVectors[i][j]] *)
Definition axis (h : CubeHeader) (i j : nat) : Q :=
  nth j (nth i (axisVectors h) []) 0%Q.

(** [header.dims[i]] *)
Definition dim (h : CubeHeader) (i : nat) : Z := nth i (dims h) 0%Z.

(** ** Input streams

    An [std::istream] is the text still to be read and the two state bits
    the program depends on. *)

Record istream : Type := mkIstream {
  buf : string;
  eofbit : bool;
  failbit : bool
}.

Definition good (s : istream) : bool := negb (eofbit s) && negb (failbit s).

(** The characters before the first newline, the text after it, and
    whether a newline was found. *)
Fixpoint splitLine (s : string) : string * string * bool :=
  match s with
  | EmptyString => ("", "", false)
  | String c t =>
      if Ascii.eqb c "010" then ("", t, true)
      else let '(l, r, d) := splitLine t in (String c l, r, d)
  end.

(** [std::getline(s, line)].  On a stream that is not good nothing is
    extracted, [failbit] is set and [line] keeps its content.  Otherwise
    [line] receives the characters up to the newline, which is consumed;
    running into the end of input sets [eofbit], and [failbit] as well when
    no character was extracted. *)
Definition getline (s : istream) (line : string) : istream * string :=
  if good s then
    let '(l, rest, delim) := splitLine (buf s) in
    if delim then (mkIstream rest false false, l)
    else (mkIstream "" true (String.eqb l ""), l)
  else (mkIstream (buf s) (eofbit s) true, line).

(** ** Formatted extraction

    [operator>>] for [int] and [double] in the "C" locale: leading white
    space is skipped, then the longest decimal literal is read.  [None] is
    a failed extraction. *)

Definition digitValue (c : ascii) : option Z :=
  let n := nat_of_ascii c in
  if ((48 <=? n) && (n <=? 57))%nat then Some (Z.of_nat (n - 48)) else None.

(** A maximal run of digits: the number read so far, how many digits were
    read, and the rest of the text. *)
Fixpoint scanDigits (s : string) (acc : Z) (count : nat)
  : Z * nat * string :=
  match s with
  | EmptyString => (acc, count, s)
  | String c t =>
      match digitValue c with
      | Some d => scanDigits t (10 * acc + d)%Z (S count)
      | None => (acc, count, s)
      end
  end.

Fixpoint skipws (s : string) : string :=
  match s with
  | EmptyString => s
  | String c t => if isWs c then skipws t else s
  end.

(** An optional sign: is it a minus, and the rest. *)
Definition scanSign (s : string) : bool * string :=
  match s with
  | String "-" t => (true, t)
  | String "+" t => (false, t)
  | _ => (false, s)
  end.

Definition INT_MIN : Z := (- 2 ^ 31)%Z.
Definition INT_MAX : Z := (2 ^ 31 - 1)%Z.

(** [is >> n] for an [int]: a value outside the range of [int] fails the
    extraction. *)
Definition scanInt (s : string) : option (Z * string) :=
  let '(neg, s1) := scanSign (skipws s) in
  let '(m, count, rest) := scanDigits s1 0%Z O in
  if (count =? 0)%nat then None
  else
    let v := if neg then (- m)%Z else m in
    if ((INT_MIN <=? v) && (v <=? INT_MAX))%Z then Some (v, rest) else None.

(** The exponent part of a floating literal, if there is one.  An [e] that
    is not followed by digits fails the extraction. *)
Definition scanExponent (s : string) : option (Z * string) :=
  match s with
  | String c t =>
      if Ascii.eqb c "e" || Ascii.eqb c "E" then
        let '(neg, s1) := scanSign t in
        let '(e, count, rest) := scanDigits s1 0%Z O in
        if (count =? 0)%nat then None
        else Some (if neg then (- e)%Z else e, rest)
      else Some (0%Z, s)
  | EmptyString => Some (0%Z, s)
  end.

(** [is >> x] for a [double]: sign, digits, optional fraction, optional
    exponent; the value is the exact decimal. *)
Definition scanDouble (s : string) : option (Q * string) :=
  let '(neg, s1) := scanSign (skipws s) in
  let '(ip, n1, s2) := scanDigits s1 0%Z O in
  let '(m, n2, s3) :=
    match s2 with
    | String "." t => scanDigits t ip O
    | _ => (ip, O, s2)
    end in
  if (n1 + n2 =? 0)%nat then None
  else
    match scanExponent s3 with
    | None => None
    | Some (e, rest) =>
        let q := (inject_Z m * 10 ^ (e - Z.of_nat n2))%Q in
        Some (if neg then (- q)%Q else q, rest)
    end.

(** [iss >> n >> x >> y >> z] on a fresh [std::istringstream iss(line)]:
    the shape of the atoms/origin line and of the three axis lines. *)
Definition scanIntDouble3 (line : string) : option (Z * Q * Q * Q) :=
  match scanInt line with
  | None => None
  | Some (n, r1) =>
      match scanDouble r1 with
      | None => None
      | Some (x, r2) =>
          match scanDouble r2 with
          | None => None
          | Some (y, r3) =>
              match scanDouble r3 with
              | None => None
              | Some (z, _) => Some (n, x, y, z)
              end
          end
      end
  end.

(** ** [readCubeFile] *)

(** [static_cast<size_t>] and multiplication of [size_t], 64 bits wide. *)
Definition SIZE_MODULUS : Z := (2 ^ 64)%Z.
Definition to_size_t (n : Z) : Z := (n mod SIZE_MODULUS)%Z.
Definition mul_size_t (a b : Z) : Z := ((a * b) mod SIZE_MODULUS)%Z.

(** [static_cast<size_t>(dims[0]) * static_cast<size_t>(dims[1])
     * static_cast<size_t>(dims[2])] *)
Definition totalPoints (dims : list Z) : Z :=
  mul_size_t (mul_size_t (to_size_t (nth 0 dims 0%Z))
                         (to_size_t (nth 1 dims 0%Z)))
             (to_size_t (nth 2 dims 0%Z)).

(** [std::abs] on [int]; the most negative [int] has no positive
    counterpart and is left as it is. *)
Definition abs_int (n : Z) : Z :=
  if (n =? INT_MIN)%Z then INT_MIN else Z.abs n.

(** The loop over the three axis lines, from axis [i], [count] lines to
    go.  [ds] and [axes] are the entries of [dims] and [axisVectors] filled
    in so far. *)
Fixpoint readAxes (count i : nat) (infile : istream) (line : string)
         (ds : list Z) (axes : list (list Q))
  : result (list Z * list (list Q) * istream * string) :=
  match count with
  | O => Ok (ds, axes, infile, line)
  | S count' =>
      let '(infile, line) := getline infile line in
      match scanIntDouble3 line with
      | None => Err (ParseError_Axis i)
      | Some (n, x, y, z) =>
          readAxes count' (S i) infile line
                   (ds ++ [n])%list (axes ++ [[inject_Z n; x; y; z]])%list
      end
  end.

(** [while (infile >> val) cube.values.push_back(val);] *)
Fixpoint readValues (fuel : nat) (infile : istream) (vals : list Q)
  : list Q :=
  match fuel with
  | O => vals
  | S fuel' =>
      if good infile then
        match scanDouble (buf infile) with
        | Some (val, rest) =>
            readValues fuel' (mkIstream rest (String.eqb rest "") false)
                       (vals ++ [val])%list
        | None => vals
        end
      else vals
  end.

(** Everything [readCubeFile] does before the final count check: the
    header and the values read.  [fs] maps a file name to the content of
    the file, when it can be opened.  [cube.values.reserve(totalPoints)]
    changes no value; the exception it raises when the allocation is
    refused is not modelled, so the model says what the function returns
    when the allocation is granted. *)
Definition readCubeFile_unchecked
           (fs : string -> option string) (filename : string)
  : result CubeData :=
  match fs filename with
  | None => Err (IOError filename)
  | Some content =>
      let infile := mkIstream content false false in
      let line := "" in
      (* the two comment lines *)
      let '(infile, line) := getline infile line in
      let comment1 := trim line in
      let '(infile, line) := getline infile line in
      let comment2 := trim line in
      let calcType :=
        if icontains comment1 "ORCA" || icontains comment2 "ORCA"
        then "ORCA"
        else if icontains comment1 "Q-Chem" || icontains comment2 "Q-Chem"
        then "Q-Chem"
        else "Generic" in
      let isOrbital :=
        if icontains comment1 "MO" || icontains comment2 "MO"
           || icontains comment1 "Orbital" || icontains comment2 "Orbital"
        then true
        else if icontains comment1 "density" || icontains comment2 "density"
        then false
        else true in
      (* number of atoms and origin *)
      let '(infile, line) := getline infile line in
      match scanIntDouble3 line with
      | None => Err ParseError_AtomsOrigin
      | Some (numAtoms, ox, oy, oz) =>
          (* the three axis vectors *)
          r <- readAxes 3 0 infile line [] [] ;;
          let '(dims, axisVectors, infile, line) := r in
          (* the atom lines, and one more line for ORCA *)
          let '(infile, line) :=
            Z.iter (abs_int numAtoms)
                   (fun st => getline (fst st) (snd st)) (infile, line) in
          let '(infile, line) :=
            if String.eqb calcType "ORCA" then getline infile line
            else (infile, line) in
          (* the volumetric data *)
          let vals := readValues (S (String.length (buf infile))) infile [] in
          Ok (mkCubeData
                (mkCubeHeader comment1 comment2 numAtoms [ox; oy; oz]
                              dims axisVectors calcType isOrbital)
                vals)
      end
  end.

(** [cube.values.size()] *)
Definition size (cube : CubeData) : Z :=
  Z.of_nat (List.length (values cube)).

Definition readCubeFile (fs : string -> option string) (filename : string)
  : result CubeData :=
  cube <- readCubeFile_unchecked fs filename ;;
  if negb (size cube =? totalPoints (dims (header cube)))%Z then
    Err (CountMismatchError (size cube) (totalPoints (dims (header cube))))
  else Ok cube.

(** [ex.what()], the message of each exception. *)
Definition to_string (n : Z) : string :=
  NilZero.string_of_int (Z.to_int n).

Definition what (e : error) : string :=
  match e with
  | IOError filename => "Error opening file: " ++ filename
  | ParseError_AtomsOrigin => "Error reading number of atoms and origin."
  | ParseError_Axis i => "Error reading axis vector " ++ to_string (Z.of_nat i)
  | CountMismatchError actual expected =>
      "Error: Number of grid points read (" ++ to_string actual
      ++ ") does not match expected (" ++ to_string expected ++ ")."
  | NoMatchingSignError => "No grid points with the requested sign."
  | NoMatchingPointsError => "No orbital grid points available."
  | ZeroTotalError_Density => "Total charge for the requested sign is zero."
  | ZeroTotalError_Orbital =>
      "Total orbital density for the requested sign is zero."
  end.

(** A cube file whose header announces 4194304 x 2097152 x 2097152 = 2^64
    grid points and whose data section is empty. *)
Definition newline : string := String "010" "".

Definition overflowFile : string :=
  "comment" ++ newline ++
  "comment" ++ newline ++
  "0 0.0 0.0 0.0" ++ newline ++
  "4194304 1.0 0.0 0.0" ++ newline ++
  "2097152 0.0 1.0 0.0" ++ newline ++
  "2097152 0.0 0.0 1.0" ++ newline.

(** A well-formed file with a 2 x 2 x 2 grid, and the same file with the
    last value missing. *)
Definition smallHeader : string :=
  "Test cube, bohr" ++ newline ++
  "electron density" ++ newline ++
  "-1 0.0 0.0 0.0" ++ newline ++
  "2 0.5 0.0 0.0" ++ newline ++
  "2 0.0 0.5 0.0" ++ newline ++
  "2 0.0 0.0 0.5" ++ newline ++
  "8 0.0 0.0 0.0 0.0" ++ newline.

Definition smallFile : string :=
  smallHeader ++ "1 2 3 4" ++ newline ++ "5E-1 -6 7.25 8" ++ newline.

Definition shortFile : string :=
  smallHeader ++ "1 2 3 4" ++ newline ++ "5E-1 -6 7.25" ++ newline.

(** ** Voxel volume *)


(** A header with the given rows of [axisVectors] and nothing else of
    interest. *)
Definition headerWithAxes (rows : list (list Q)) : CubeHeader :=
  mkCubeHeader "" "" 0 [0; 0; 0]%Q [1; 1; 1]%Z rows "Generic" true.

(** ** Vocabulary for the properties of [trim] *)

Fixpoint allWs (s : string) : bool :=
  match s with
  | EmptyString => true
  | String c t => isWs c && allWs t
  end.

Definition firstChar (s : string) : option ascii :=
  match s with
  | EmptyString => None
  | String c _ => Some c
  end.

Fixpoint lastChar (s : string) : option ascii :=
  match s with
  | EmptyString => None
  | String c EmptyString => Some c
  | String _ t => lastChar t
  end.

(** [s] neither begins nor ends with a white-space character. *)
Definition trimmed (s : string) : Prop :=
  (forall c, firstChar s = Some c -> isWs c = false)
  /\ (forall c, lastChar s = Some c -> isWs c = false).

(** [s] up to and including its last character that is not white space. *)
Definition takeToLast (s : string) : string :=
  match find_last_not_of s with
  | Some k => substring 0 (k + 1) s
  | None => ""
  end.

(** ** Vocabulary for the properties of [readCubeFile] *)

(** [n] fits an [int]. *)
Definition isInt (n : Z) : Prop := (INT_MIN <= n <= INT_MAX)%Z.

(** A row of [axisVectors] that starts with the voxel count [d]. *)
Definition rowOf (d : Z) (row : list Q) : Prop :=
  exists x y z, row = [inject_Z d; x; y; z].

(** The keyword tests of [readCubeFile] on the two comment lines. *)
Definition mentions (h : CubeHeader) (keyword : string) : Prop :=
  containsNoCase (comment1 h) keyword \/ containsNoCase (comment2 h) keyword.

(** What [readCubeFile] returns on [smallFile]. *)
Definition smallCube : CubeData :=
  match readCubeFile (fun _ => Some smallFile) "small.cube" with
  | Ok cube => cube
  | Err _ => mkCubeData (headerWithAxes []) []
  end.

(** ** [main]: the sign used for orbital data *)

(** One iteration of the loop that adds up the squares of the positive and
    of the negative grid values into [(posTotal, negTotal)]. *)
Definition signTotals_step (st : Q * Q) (v : Q) : Q * Q :=
  let '(posTotal, negTotal) := st in
  if Qgtb v 0 then ((posTotal + v * v)%Q, negTotal)
  else if Qltb v 0 then (posTotal, (negTotal + v * v)%Q)
  else (posTotal, negTotal).

(** The value of [positive] after the block
    [if (cube.header.isOrbital) { ... }] of [main], for orbital data. *)
Definition resolveSign (values : list Q) (positiveSign : bool) : bool :=
  let '(posTotal, negTotal) := fold_left signTotals_step values (0%Q, 0%Q) in
  if negb ((positiveSign && Qgtb posTotal 0)
           || (negb positiveSign && Qgtb negTotal 0))
  then Qgeb posTotal (Qabs negTotal)
  else positiveSign.

(** ** [main]: the command line *)

Record Options : Type := mkOptions {
  cubeFilename : string;
  usePercentage : bool;
  useIsovalue : bool;
  inputValue : Q;
  positiveSign : bool     (* the variable [positive] of [main] *)
}.

(** How the argument processing of [main] ends: it goes on with the
    options, returns an exit code, or an exception of [std::stod] leaves
    [main], which has no handler around the loop. *)
Inductive ArgOutcome : Type :=
| ArgsOk (o : Options)
| ArgsExit (code : Z)
| ArgsThrow.

Section CommandLine.
(** [std::stod]; [None] when it throws. *)
Variable stod : string -> option Q.

(** The loop [for (int i = 2; i < argc; ++i)] on the arguments from
    [argv[i]] on. *)
Fixpoint processArgs (args : list string) (o : Options) : ArgOutcome :=
  match args with
  | [] => ArgsOk o
  | arg :: rest =>
      match rest with
      | next :: rest' =>
          if String.eqb arg "-p" then
            match stod next with
            | Some x =>
                processArgs rest'
                  (mkOptions (cubeFilename o) true (useIsovalue o) x
                             (positiveSign o))
            | None => ArgsThrow
            end
          else if String.eqb arg "-v" then
            match stod next with
            | Some x =>
                processArgs rest'
                  (mkOptions (cubeFilename o) (usePercentage o) true x
                             (positiveSign o))
            | None => ArgsThrow
            end
          else if String.eqb arg "-s" then
            if String.eqb next "pos" then
              processArgs rest'
                (mkOptions (cubeFilename o) (usePercentage o) (useIsovalue o)
                           (inputValue o) true)
            else if String.eqb next "neg" then
              processArgs rest'
                (mkOptions (cubeFilename o) (usePercentage o) (useIsovalue o)
                           (inputValue o) false)
            else ArgsExit 1
          else ArgsExit 1
      | [] => ArgsExit 1
      end
  end.

(** [main] up to the [try] block; [argv] includes the program name. *)
Definition parseArgs (argv : list string) : ArgOutcome :=
  if (List.length argv <? 4)%nat then ArgsExit 1
  else
    let o := mkOptions (nth 1 argv "") false false 0%Q true in
    match processArgs (skipn 2 argv) o with
    | ArgsOk o' =>
        if Bool.eqb (usePercentage o') (useIsovalue o') then ArgsExit 1
        else ArgsOk o'
    | r => r
    end.
End CommandLine.

(** An [std::stod] for the examples: plain decimal literals. *)
Definition stodDecimal (s : string) : option Q :=
  option_map fst (scanDouble s).

(** * The same code on IEEE binary64

    The functions that decide a question of rounding, overflow or
    underflow, once more, on Rocq's primitive floats: [double] is [float],
    every operation is the correctly rounded binary64 operation the C++
    code executes, and the functions evaluate to the numbers the program
    prints.  They are used where the exact model above says nothing: to
    run the code at inputs where a sum overflows or a result is rounded,
    and for [detectAngstrom], whose square root has no rational
    counterpart. *)

Module Binary64.

(** [if (positive && v > 0) ... else if (!positive && v < 0) ...] *)
Definition keep (positive : bool) (v : float) : bool :=
  if positive && (0 <? v)%float then true
  else if negb positive && (v <? 0)%float then true
  else false.

(** [for (double v : l) total += v;] *)
Definition sumList (l : list float) : float :=
  fold_left PrimFloat.add l 0%float.

Fixpoint accumulate (cross : float -> float -> bool) (target : float)
         (l : list float) (integ : float) : option float :=
  match l with
  | [] => None
  | v :: t =>
      let integ' := (integ + v)%float in
      if cross integ' target then Some v else accumulate cross target t integ'
  end.

(** [integ >= target] and [integ <= target] *)
Definition geb (x y : float) : bool := (y <=? x)%float.
Definition leb (x y : float) : bool := (x <=? y)%float.

(** [std::greater<double>()] and the default [operator<] *)
Definition greater (a b : float) : bool := (b <? a)%float.
Definition less (a b : float) : bool := (a <? b)%float.

Definition computeIsovalueFromPercentage_Density
           (values : list float) (percent : float) (positive : bool)
  : result float :=
  let filtered := filter (keep positive) values in
  match filtered with
  | [] => Err NoMatchingSignError
  | _ :: _ =>
      let total := sumList filtered in
      let target := ((percent / 100) * total)%float in
      let sorted := if positive then sort_by greater filtered
                    else sort_by less filtered in
      let hit := if positive then accumulate geb target sorted 0%float
                 else accumulate leb target sorted 0%float in
      match hit with
      | Some v => Ok v
      | None => Ok (last sorted 0%float)
      end
  end.

Definition pctDensity_step (isovalue : float) (positive : bool)
           (st : float * float) (v : float) : float * float :=
  let '(total, integ) := st in
  if positive && (0 <? v)%float then
    ((total + v)%float, if geb v isovalue then (integ + v)%float else integ)
  else if negb positive && (v <? 0)%float then
    ((total + v)%float, if leb v isovalue then (integ + v)%float else integ)
  else (total, integ).

Definition computePercentageFromIsovalue_Density
           (values : list float) (isovalue : float) (positive : bool)
  : result float :=
  let '(total, integ) :=
    fold_left (pctDensity_step isovalue positive) values (0%float, 0%float) in
  if (total =? 0)%float then Err ZeroTotalError_Density
  else Ok ((integ / total) * 100)%float.

Definition pctOrbital_step (thresholdDensity : float)
           (st : float * float) (v : float) : float * float :=
  let '(total, integ) := st in
  let d := (v * v)%float in
  ((total + d)%float,
   if geb d thresholdDensity then (integ + d)%float else integ).

Definition computePercentageFromIsovalue_Orbital
           (values : list float) (isovalue : float) (positive : bool)
  : result float :=
  let thresholdDensity := (isovalue * isovalue)%float in
  let '(total, integ) :=
    fold_left (pctOrbital_step thresholdDensity) values (0%float, 0%float) in
  if (total =? 0)%float then Err ZeroTotalError_Orbital
  else Ok ((integ / total) * 100)%float.

(** The header as the program holds it. *)
Record CubeHeader : Type := mkCubeHeader {
  comment1 : string;
  comment2 : string;
  numAtoms : Z;                      (* int *)
  origin : list float;               (* double[3] *)
  dims : list Z;                     (* int[3] *)
  axisVectors : list (list float);   (* double[3][4], rows [n, ax, ay, az] *)
  calcType : string;
  isOrbital : bool
}.

(** [header.axisVectors[i][j]] *)
Definition axis (h : CubeHeader) (i j : nat) : float :=
  nth j (nth i (axisVectors h) []) 0%float.

Definition detectAngstrom (h : CubeHeader) : bool :=
  if icontains (comment1 h) "angstrom" || icontains (comment2 h) "angstrom"
  then true
  else if icontains (comment1 h) "bohr" || icontains (comment2 h) "bohr"
  then false
  else
    let totalLength :=
      fold_left
        (fun totalLength i =>
           let ax := axis h i 1 in
           let ay := axis h i 2 in
           let az := axis h i 3 in
           let len := PrimFloat.sqrt (ax * ax + ay * ay + az * az)%float in
           (totalLength + len)%float)
        [0; 1; 2]%nat 0%float in
    let avgLength := (totalLength / 3)%float in
    (2 <? avgLength)%float.

End Binary64.

(** The Euclidean norm of a vector and the average of three numbers, as
    binary64 computes them; the sum of the average starts from zero. *)
Definition euclideanNorm (x y z : float) : float :=
  PrimFloat.sqrt (x * x + y * y + z * z)%float.

Definition average3 (a b c : float) : float := ((0 + a + b + c) / 3)%float.

(** Headers for the examples: the given comment and three axis rows. *)
Definition floatHeader (comment : string) (rows : list (list float))
  : Binary64.CubeHeader :=
  Binary64.mkCubeHeader comment "" 0 [0; 0; 0]%float [1; 1; 1]%Z rows
                        "Generic" true.

Local Close Scope string_scope.

(* ================================================================== *)
(** * Part II: properties *)
(* ================================================================== *)

(** ** Comparisons *)

Lemma Qltb_lt (x y : Q) : Qltb x y = true <-> x < y.
Proof.
  unfold Qltb. rewrite negb_true_iff, <- not_true_iff_false, Qle_bool_iff.
  split; [apply Qnot_le_lt | apply Qlt_not_le].
Qed.

Lemma Qltb_ge (x y : Q) : Qltb x y = false <-> y <= x.
Proof.
  unfold Qltb. rewrite negb_false_iff. apply Qle_bool_iff.
Qed.

Lemma Qgtb_lt (x y : Q) : Qgtb x y = true <-> y < x.
Proof. apply Qltb_lt. Qed.

Lemma Qgtb_le (x y : Q) : Qgtb x y = false <-> x <= y.
Proof. apply Qltb_ge. Qed.

Lemma Qleb_le (x y : Q) : Qleb x y = true <-> x <= y.
Proof. apply Qle_bool_iff. Qed.

Lemma Qleb_gt (x y : Q) : Qleb x y = false <-> y < x.
Proof.
  unfold Qleb. rewrite <- not_true_iff_false, Qle_bool_iff.
  split; [apply Qnot_le_lt | apply Qlt_not_le].
Qed.

Lemma Qgeb_le (x y : Q) : Qgeb x y = true <-> y <= x.
Proof. apply Qle_bool_iff. Qed.

Lemma Qgeb_lt (x y : Q) : Qgeb x y = false <-> x < y.
Proof. apply Qleb_gt. Qed.

(** Turn every boolean comparison of the context and goal into its
    proposition. *)
Ltac qbool :=
  repeat match goal with
  | H : Qltb _ _ = true |- _ => apply Qltb_lt in H
  | H : Qltb _ _ = false |- _ => apply Qltb_ge in H
  | H : Qgtb _ _ = true |- _ => apply Qgtb_lt in H
  | H : Qgtb _ _ = false |- _ => apply Qgtb_le in H
  | H : Qleb _ _ = true |- _ => apply Qleb_le in H
  | H : Qleb _ _ = false |- _ => apply Qleb_gt in H
  | H : Qgeb _ _ = true |- _ => apply Qgeb_le in H
  | H : Qgeb _ _ = false |- _ => apply Qgeb_lt in H
  | |- Qltb _ _ = true => apply Qltb_lt
  | |- Qltb _ _ = false => apply Qltb_ge
  | |- Qgtb _ _ = true => apply Qgtb_lt
  | |- Qgtb _ _ = false => apply Qgtb_le
  | |- Qleb _ _ = true => apply Qleb_le
  | |- Qleb _ _ = false => apply Qleb_gt
  | |- Qgeb _ _ = true => apply Qgeb_le
  | |- Qgeb _ _ = false => apply Qgeb_lt
  end.

(** The mirror image of a comparison: negating both sides swaps them. *)
Lemma Qltb_opp (x y : Q) : Qltb (- x) (- y) = Qgtb x y.
Proof.
  unfold Qgtb. destruct (Qltb y x) eqn:E; qbool; lra.
Qed.

Lemma Qleb_opp (x y : Q) : Qleb (- x) (- y) = Qgeb x y.
Proof.
  destruct (Qgeb x y) eqn:E; qbool; lra.
Qed.

Lemma Qopp_sq (v : Q) : (- v) * (- v) = v * v.
Proof.
  destruct v as [n d]. unfold Qmult, Qopp. simpl.
  now rewrite Z.mul_opp_opp.
Qed.

Lemma Qopp_opp_eq (v : Q) : - - v = v.
Proof.
  destruct v as [n d]. unfold Qopp. simpl. now rewrite Z.opp_involutive.
Qed.

(** ** The sort *)

Section SortFacts.
Context {A : Type}.
Variable comp : A -> A -> bool.

Lemma insert_by_perm (x : A) (l : list A) :
  Permutation (insert_by comp x l) (x :: l).
Proof.
  induction l as [|y t IH]; simpl; [reflexivity|].
  destruct (comp y x); [|reflexivity].
  rewrite IH. apply perm_swap.
Qed.

Lemma sort_by_perm (l : list A) : Permutation (sort_by comp l) l.
Proof.
  induction l as [|x t IH]; simpl; [reflexivity|].
  rewrite insert_by_perm. now constructor.
Qed.

Lemma sort_by_In (l : list A) (x : A) : In x (sort_by comp l) <-> In x l.
Proof.
  split; apply Permutation_in;
    [apply sort_by_perm | symmetry; apply sort_by_perm].
Qed.

Lemma sort_by_nil_inv (l : list A) : sort_by comp l = [] -> l = [].
Proof.
  intros H. apply Permutation_nil. rewrite <- H. apply sort_by_perm.
Qed.

Hypothesis comp_asym : forall x y, comp x y = true -> comp y x = false.
Hypothesis before_trans :
  forall x y z, before comp x y -> before comp y z -> before comp x z.

Lemma insert_by_sorted (x : A) (l : list A) :
  StronglySorted (before comp) l ->
  StronglySorted (before comp) (insert_by comp x l).
Proof.
  induction 1 as [|y t Hs IH Hall]; simpl.
  - repeat constructor.
  - destruct (comp y x) eqn:E.
    + constructor; [exact IH|].
      rewrite Forall_forall in *. intros z Hz.
      apply (Permutation_in _ (insert_by_perm x t)) in Hz.
      destruct Hz as [<-|Hz]; [now apply comp_asym | now apply Hall].
    + constructor; [now constructor|].
      constructor; [exact E|].
      rewrite Forall_forall in *. intros z Hz.
      apply before_trans with y; [exact E | now apply Hall].
Qed.

Lemma sort_by_sorted (l : list A) :
  StronglySorted (before comp) (sort_by comp l).
Proof.
  induction l as [|x t IH]; simpl; [constructor|].
  now apply insert_by_sorted.
Qed.
End SortFacts.

(** The sort commutes with any map that preserves the comparator. *)
Lemma sort_by_map {A B : Type} (f : A -> B)
      (compA : A -> A -> bool) (compB : B -> B -> bool) :
  (forall x y, compB (f x) (f y) = compA x y) ->
  forall l, sort_by compB (map f l) = map f (sort_by compA l).
Proof.
  intros Hf.
  assert (Hins : forall x l,
             insert_by compB (f x) (map f l) = map f (insert_by compA x l)).
  { intros x l. induction l as [|y t IH]; simpl; [reflexivity|].
    rewrite Hf. destruct (compA y x); simpl; [now rewrite IH | reflexivity]. }
  induction l as [|x t IH]; simpl; [reflexivity|].
  now rewrite IH, Hins.
Qed.

Lemma sort_desc_sorted (l : list Q) :
  StronglySorted (fun x y => y <= x) (sort_by Qgtb l).
Proof.
  eapply StronglySorted_ind with (P := StronglySorted (fun x y => y <= x));
    [constructor| |apply (sort_by_sorted Qgtb)].
  - intros a t _ IH Hall. constructor; [exact IH|].
    eapply Forall_impl; [|exact Hall]. unfold before. intros; qbool; assumption.
  - intros; qbool; lra.
  - unfold before. intros; qbool; lra.
Qed.

(** ** Sums *)

Lemma fold_left_Qplus_acc (l : list Q) (a : Q) :
  fold_left Qplus l a == a + sumList l.
Proof.
  unfold sumList. revert a.
  induction l as [|x t IH]; intros a; cbn [fold_left]; [ring|].
  rewrite (IH (a + x)), (IH (0 + x)). ring.
Qed.

Lemma sumList_cons (x : Q) (l : list Q) : sumList (x :: l) == x + sumList l.
Proof.
  unfold sumList at 1. cbn [fold_left]. rewrite fold_left_Qplus_acc. lra.
Qed.

Lemma sumList_app (l1 l2 : list Q) :
  sumList (l1 ++ l2) == sumList l1 + sumList l2.
Proof.
  induction l1 as [|x t IH]; cbn [app].
  - unfold sumList at 2. cbn [fold_left]. lra.
  - rewrite !sumList_cons, IH. lra.
Qed.

Lemma sumList_perm (l1 l2 : list Q) :
  Permutation l1 l2 -> sumList l1 == sumList l2.
Proof.
  induction 1 as [|x l l' _ IH|x y l|l l' l'' _ IH1 _ IH2].
  - reflexivity.
  - rewrite !sumList_cons, IH. reflexivity.
  - rewrite !sumList_cons. lra.
  - now rewrite IH1.
Qed.

Lemma sumList_map_opp (l : list Q) : sumList (map Qopp l) == - sumList l.
Proof.
  induction l as [|x t IH]; cbn [map]; [reflexivity|].
  rewrite !sumList_cons, IH. lra.
Qed.

Lemma sumList_nonneg (l : list Q) :
  Forall (fun v => 0 <= v) l -> 0 <= sumList l.
Proof.
  induction 1 as [|x t Hx _ IH]; [unfold sumList; cbn [fold_left]; lra|].
  rewrite sumList_cons. lra.
Qed.

Lemma sumList_pos (l : list Q) :
  l <> [] -> Forall (fun v => 0 < v) l -> 0 < sumList l.
Proof.
  intros Hne Hall. destruct Hall as [|x t Hx Ht]; [congruence|].
  rewrite sumList_cons.
  assert (0 <= sumList t).
  { apply sumList_nonneg. eapply Forall_impl; [|exact Ht].
    intros a Ha. cbv beta in *. lra. }
  lra.
Qed.

(** ** The sign filter *)

Lemma keep_true (v : Q) : keep true v = true <-> 0 < v.
Proof.
  unfold keep. simpl. destruct (Qgtb v 0) eqn:E; qbool; split; intros;
    try lra; try reflexivity; try discriminate.
Qed.

Lemma keep_false (v : Q) : keep false v = true <-> v < 0.
Proof.
  unfold keep. simpl. destruct (Qltb v 0) eqn:E; qbool; split; intros;
    try lra; try reflexivity; try discriminate.
Qed.

Lemma keep_opp (v : Q) : keep false (- v) = keep true v.
Proof.
  destruct (keep true v) eqn:E.
  - apply keep_true in E. apply keep_false. lra.
  - apply not_true_iff_false. rewrite keep_false.
    apply not_true_iff_false in E. rewrite keep_true in E. lra.
Qed.

Lemma filter_keep_opp (l : list Q) :
  filter (keep false) (map Qopp l) = map Qopp (filter (keep true) l).
Proof.
  induction l as [|x t IH]; simpl; [reflexivity|].
  rewrite keep_opp. destruct (keep true x); simpl; now rewrite IH.
Qed.

Lemma filter_keep_true_pos (l : list Q) :
  Forall (fun v => 0 < v) (filter (keep true) l).
Proof.
  apply Forall_forall. intros x Hx. apply filter_In in Hx.
  now apply keep_true.
Qed.

(** ** The accumulation loop *)

Lemma accumulate_In cross target l integ r :
  accumulate cross target l integ = Some r -> In r l.
Proof.
  revert integ. induction l as [|v t IH]; intros integ; cbn [accumulate];
    [discriminate|].
  destruct (cross (integ + v) target).
  - intros [= <-]. now left.
  - intros H. right. eauto.
Qed.

(** Mirror image of the positive loop: on the negated list, with negated
    running sum and target, the negative loop stops at the negated value. *)
Lemma accumulate_mirror (l : list Q) (t t' i i' : Q) :
  t' == - t -> i' == - i ->
  accumulate Qleb t' (map Qopp l) i'
  = option_map Qopp (accumulate Qgeb t l i).
Proof.
  revert i i'. induction l as [|v u IH]; intros i i' Ht Hi;
    cbn [map accumulate]; [reflexivity|].
  assert (E : Qleb (i' + - v) t' = Qgeb (i + v) t).
  { destruct (Qgeb (i + v) t) eqn:E; qbool; lra. }
  rewrite E. destruct (Qgeb (i + v) t); [reflexivity|].
  apply IH; [exact Ht | lra].
Qed.

Lemma last_map {A B : Type} (f : A -> B) (l : list A) (d : A) :
  last (map f l) (f d) = f (last l d).
Proof.
  induction l as [|x [|y t] IH]; simpl in *; auto.
Qed.

(** The density mirror law, shared by the claims on the negative branch. *)
Lemma density_isovalue_mirror (values : list Q) (percent : Q) :
  computeIsovalueFromPercentage_Density (map Qopp values) percent false
  = result_map Qopp
      (computeIsovalueFromPercentage_Density values percent true).
Proof.
  unfold computeIsovalueFromPercentage_Density.
  rewrite filter_keep_opp.
  destruct (filter (keep true) values) as [|x f] eqn:Ef; [reflexivity|].
  cbn [map]. rewrite <- (map_cons Qopp x f).
  rewrite (sort_by_map Qopp Qgtb Qltb) by (intros; apply Qltb_opp).
  rewrite (accumulate_mirror _ (percent / 100 * sumList (x :: f))
             _ 0 0).
  - destruct (accumulate Qgeb _ _ 0); cbn; [reflexivity|].
    now rewrite <- (last_map Qopp).
  - rewrite sumList_map_opp. lra.
  - lra.
Qed.

(** ** Orbital mode under negation of the grid *)

Lemma makePoints_opp (i : nat) (values : list Q) :
  makePoints i (map Qopp values) = map negPoint (makePoints i values).
Proof.
  revert i. induction values as [|v t IH]; intros i; cbn [map makePoints];
    [reflexivity|].
  rewrite IH. unfold negPoint at 2. cbn [density value index].
  now rewrite Qopp_sq.
Qed.

Lemma byDensityDesc_negPoint (a b : OrbitalPoint) :
  byDensityDesc (negPoint a) (negPoint b) = byDensityDesc a b.
Proof. reflexivity. Qed.

Lemma total_density_negPoint (l : list OrbitalPoint) (a : Q) :
  fold_left (fun acc p => acc + density p) (map negPoint l) a
  = fold_left (fun acc p => acc + density p) l a.
Proof.
  revert a. induction l as [|p t IH]; intros a; cbn [map fold_left];
    [reflexivity|].
  apply IH.
Qed.

Lemma accumulatePoints_negPoint (target : Q) (l : list OrbitalPoint) (i : Q) :
  accumulatePoints target (map negPoint l) i
  = option_map negPoint (accumulatePoints target l i).
Proof.
  revert i. induction l as [|p t IH]; intros i;
    cbn [map accumulatePoints]; [reflexivity|].
  change (density (negPoint p)) with (density p).
  destruct (Qgeb (i + density p) target); [reflexivity | apply IH].
Qed.

Lemma orbital_isovalue_opp (values : list Q) (percent : Q) (s1 s2 : bool) :
  computeIsovalueFromPercentage_Orbital (map Qopp values) percent s1
  = result_map Qopp
      (computeIsovalueFromPercentage_Orbital values percent s2).
Proof.
  unfold computeIsovalueFromPercentage_Orbital.
  rewrite makePoints_opp.
  destruct (makePoints 0 values) as [|p0 ps] eqn:Ep; [reflexivity|].
  cbn [map]. rewrite <- (map_cons negPoint p0 ps).
  rewrite total_density_negPoint.
  rewrite (sort_by_map negPoint byDensityDesc byDensityDesc)
    by apply byDensityDesc_negPoint.
  rewrite accumulatePoints_negPoint.
  destruct (accumulatePoints _ _ 0); cbn; [reflexivity|].
  now rewrite last_map.
Qed.

Lemma pctOrbital_fold_opp (th : Q) (values : list Q) (st : Q * Q) :
  fold_left (pctOrbital_step th) (map Qopp values) st
  = fold_left (pctOrbital_step th) values st.
Proof.
  revert st. induction values as [|v t IH]; intros st; cbn [map fold_left];
    [reflexivity|].
  rewrite IH. f_equal. destruct st as [total integ].
  unfold pctOrbital_step. now rewrite Qopp_sq.
Qed.

Lemma orbital_percentage_opp (values : list Q) (isovalue : Q) (s1 s2 : bool) :
  computePercentageFromIsovalue_Orbital (map Qopp values) isovalue s1
  = computePercentageFromIsovalue_Orbital values isovalue s2.
Proof.
  unfold computePercentageFromIsovalue_Orbital.
  now rewrite pctOrbital_fold_opp.
Qed.

(** ** The percentage loops *)

Lemma Qsqr_nonneg (v : Q) : 0 <= v * v.
Proof. nra. Qed.

Lemma pctDensity_step_between isovalue positive st v :
  between positive st -> between positive (pctDensity_step isovalue positive st v).
Proof.
  destruct st as [total integ]. unfold between, pctDensity_step.
  destruct positive; cbn [andb negb fst snd]; intros [H1 H2].
  - destruct (Qgtb v 0) eqn:E1; [|cbn [fst snd]; lra].
    destruct (Qgeb v isovalue); cbn [fst snd]; qbool; lra.
  - destruct (Qltb v 0) eqn:E1; [|cbn [fst snd]; lra].
    destruct (Qleb v isovalue); cbn [fst snd]; qbool; lra.
Qed.

Lemma pctDensity_fold_between isovalue positive values st :
  between positive st ->
  between positive (fold_left (pctDensity_step isovalue positive) values st).
Proof.
  revert st. induction values as [|v t IH]; intros st H; cbn [fold_left];
    [exact H|].
  apply IH. now apply pctDensity_step_between.
Qed.

Lemma pctOrbital_fold_between th values st :
  between true st -> between true (fold_left (pctOrbital_step th) values st).
Proof.
  revert st. induction values as [|v t IH]; intros st H; cbn [fold_left];
    [exact H|].
  apply IH. destruct st as [total integ]. unfold between, pctOrbital_step in *.
  cbn [fst snd] in *. pose proof (Qsqr_nonneg v) as Hv.
  destruct (Qgeb (v * v) th); cbn [fst snd]; lra.
Qed.

Lemma Qeq_bool_false (x y : Q) : Qeq_bool x y = false -> ~ x == y.
Proof.
  intros H E. apply Qeq_bool_iff in E. congruence.
Qed.

(** A ratio of an enclosed sum to its total, as a percentage. *)
Lemma ratio_range_pos (i t : Q) :
  0 < t -> 0 <= i -> i <= t -> 0 <= i / t * 100 /\ i / t * 100 <= 100.
Proof.
  intros Ht H0 H1.
  assert (A : 0 <= i / t) by (apply Qle_shift_div_l; lra).
  assert (B : i / t <= 1) by (apply Qle_shift_div_r; lra).
  lra.
Qed.

Lemma ratio_range (positive : bool) (st : Q * Q) :
  between positive st -> ~ fst st == 0 ->
  0 <= snd st / fst st * 100 /\ snd st / fst st * 100 <= 100.
Proof.
  destruct st as [t i]. unfold between. cbn [fst snd].
  destruct positive; intros [H1 H2] Hne.
  - apply ratio_range_pos; lra.
  - assert (E : i / t == (- i) / (- t)) by (field; lra).
    rewrite E. apply ratio_range_pos; lra.
Qed.

(** ** All-zero grids *)

Lemma pctDensity_fold_zero isovalue positive values st :
  Forall (fun v => v == 0) values ->
  fold_left (pctDensity_step isovalue positive) values st = st.
Proof.
  intros Hall. revert st.
  induction Hall as [|v t Hv _ IH]; intros st; cbn [fold_left];
    [reflexivity|].
  rewrite IH. destruct st as [total integ]. unfold pctDensity_step.
  assert (E1 : Qgtb v 0 = false) by (qbool; lra).
  assert (E2 : Qltb v 0 = false) by (qbool; lra).
  rewrite E1, E2, !andb_false_r. reflexivity.
Qed.

Lemma pctOrbital_fold_zero th values st :
  Forall (fun v => v == 0) values -> fst st == 0 ->
  fst (fold_left (pctOrbital_step th) values st) == 0.
Proof.
  intros Hall. revert st.
  induction Hall as [|v t Hv _ IH]; intros st Hst; cbn [fold_left];
    [exact Hst|].
  apply IH. destruct st as [total integ]. unfold pctOrbital_step.
  cbn [fst] in *. rewrite Hst, Hv. ring.
Qed.

(** ** Monotonicity of the positive branch *)

Lemma last_In {A : Type} (l : list A) (d : A) : l <> [] -> In (last l d) l.
Proof.
  induction l as [|x [|y t] IH]; intros H; [congruence|now left|].
  right. apply IH. discriminate.
Qed.

Lemma descending_head (v : Q) (u : list Q) (w : Q) :
  descending (v :: u) -> In w u -> w <= v.
Proof.
  intros H Hw. apply StronglySorted_inv in H as [_ H].
  rewrite Forall_forall in H. now apply H.
Qed.

Lemma pickPositive_In (t : Q) (l : list Q) (i : Q) :
  l <> [] -> In (pickPositive t l i) l.
Proof.
  intros Hne. unfold pickPositive.
  destruct (accumulate Qgeb t l i) eqn:E;
    [eapply accumulate_In; eauto | now apply last_In].
Qed.

Lemma pickPositive_cons_skip (t v : Q) (u : list Q) (i : Q) :
  u <> [] -> Qgeb (i + v) t = false ->
  pickPositive t (v :: u) i = pickPositive t u (i + v).
Proof.
  intros Hne E. unfold pickPositive. cbn [accumulate]. rewrite E.
  destruct (accumulate Qgeb t u (i + v)); [reflexivity|].
  destruct u; [congruence | reflexivity].
Qed.

Lemma pickPositive_mono (l : list Q) (i t1 t2 : Q) :
  descending l -> t1 <= t2 ->
  pickPositive t2 l i <= pickPositive t1 l i.
Proof.
  revert i. induction l as [|v u IH]; intros i Hs Ht.
  - unfold pickPositive. cbn. lra.
  - destruct u as [|v' u'].
    + unfold pickPositive. cbn [accumulate last].
      destruct (Qgeb (i + v) t1), (Qgeb (i + v) t2); lra.
    + assert (Hne : v' :: u' <> []) by discriminate.
      destruct (Qgeb (i + v) t2) eqn:E2.
      * assert (E1 : Qgeb (i + v) t1 = true) by (qbool; lra).
        unfold pickPositive. cbn [accumulate]. rewrite E1, E2. lra.
      * rewrite (pickPositive_cons_skip t2) by assumption.
        destruct (Qgeb (i + v) t1) eqn:E1.
        -- unfold pickPositive at 2. cbn [accumulate]. rewrite E1.
           apply descending_head with (v' :: u'); [exact Hs|].
           now apply pickPositive_In.
        -- rewrite (pickPositive_cons_skip t1) by assumption.
           apply IH; [|exact Ht].
           now apply StronglySorted_inv in Hs.
Qed.

Lemma density_isovalue_positive (values : list Q) (percent : Q) :
  filter (keep true) values <> [] ->
  computeIsovalueFromPercentage_Density values percent true
  = Ok (pickPositive (percent / 100 * sumList (filter (keep true) values))
          (sort_by Qgtb (filter (keep true) values)) 0).
Proof.
  intros Hne. unfold computeIsovalueFromPercentage_Density, pickPositive.
  destruct (filter (keep true) values) as [|x f]; [congruence|].
  now destruct (accumulate _ _ _ 0).
Qed.

Lemma exists_positive_filter (values : list Q) :
  Exists (fun v => 0 < v) values -> filter (keep true) values <> [].
Proof.
  intros H. apply Exists_exists in H as (v & Hin & Hv).
  intros E. assert (Hf : In v (filter (keep true) values))
    by (apply filter_In; split; [exact Hin | now apply keep_true]).
  rewrite E in Hf. destruct Hf.
Qed.

(** ** Consistency of the two density directions *)

Lemma enclosed_cons (r v : Q) (l : list Q) :
  enclosed r (v :: l) == (if Qgeb v r then v else 0) + enclosed r l.
Proof.
  unfold enclosed. cbn [filter].
  destruct (Qgeb v r); [apply sumList_cons | lra].
Qed.

Lemma enclosed_perm (r : Q) (l1 l2 : list Q) :
  Permutation l1 l2 -> enclosed r l1 == enclosed r l2.
Proof.
  induction 1 as [|x l l' _ IH|x y l|l l' l'' _ IH1 _ IH2].
  - reflexivity.
  - rewrite !enclosed_cons, IH. reflexivity.
  - rewrite !enclosed_cons. lra.
  - now rewrite IH1.
Qed.

Lemma enclosed_nonneg (r : Q) (l : list Q) :
  Forall (fun v => 0 < v) l -> 0 <= enclosed r l.
Proof.
  induction 1 as [|v t Hv _ IH]; [unfold enclosed, sumList; cbn; lra|].
  rewrite enclosed_cons. destruct (Qgeb v r); lra.
Qed.

(** At a crossing the entries at least as large as the returned value add up
    to the target or more. *)
Lemma enclosed_ge_cross (t : Q) (s : list Q) (i r : Q) :
  descending s -> Forall (fun v => 0 < v) s ->
  accumulate Qgeb t s i = Some r -> t <= i + enclosed r s.
Proof.
  revert i. induction s as [|v u IH]; intros i Hs Hpos; cbn [accumulate];
    [discriminate|].
  apply Forall_cons_iff in Hpos as [Hv Hu].
  pose proof (enclosed_nonneg r u Hu) as Hnn.
  rewrite enclosed_cons.
  destruct (Qgeb (i + v) t) eqn:E.
  - intros [= <-]. assert (Er : Qgeb v v = true) by (qbool; lra).
    rewrite Er. qbool. lra.
  - intros H. pose proof (accumulate_In _ _ _ _ _ H) as Hin.
    assert (Er : Qgeb v r = true)
      by (qbool; now apply descending_head with u).
    rewrite Er. apply StronglySorted_inv in Hs as [Hs _].
    specialize (IH (i + v) Hs Hu H). lra.
Qed.

(** When the loop runs to the end, the returned last entry is the smallest,
    and everything is enclosed. *)
Lemma descending_last_le (s : list Q) (d w : Q) :
  descending s -> In w s -> last s d <= w.
Proof.
  induction s as [|v u IH]; intros Hs Hw; [destruct Hw|].
  destruct u as [|v' u'].
  - destruct Hw as [<-|[]]. cbn. lra.
  - change (last (v :: v' :: u') d) with (last (v' :: u') d).
    destruct Hw as [<-|Hw].
    + apply descending_head with (v' :: u'); [exact Hs|].
      apply last_In. discriminate.
    + apply IH; [now apply StronglySorted_inv in Hs | exact Hw].
Qed.

Lemma enclosed_all (r : Q) (l : list Q) :
  (forall w, In w l -> r <= w) -> enclosed r l == sumList l.
Proof.
  induction l as [|v t IH]; intros H; [reflexivity|].
  rewrite enclosed_cons, sumList_cons, IH by (intros; apply H; now right).
  assert (E : Qgeb v r = true) by (qbool; apply H; now left).
  rewrite E. reflexivity.
Qed.

(** What the loop of the positive isovalue-to-percentage direction
    computes. *)
Lemma pctDensity_fold_true (r : Q) (values : list Q) (st : Q * Q) :
  fst (fold_left (pctDensity_step r true) values st)
  == fst st + sumList (filter (keep true) values)
  /\ snd (fold_left (pctDensity_step r true) values st)
     == snd st + enclosed r (filter (keep true) values).
Proof.
  revert st. induction values as [|v t IH]; intros [total integ];
    cbn [fold_left filter fst snd].
  - unfold enclosed, sumList. cbn [filter fold_left]. split; ring.
  - destruct (IH (pctDensity_step r true (total, integ) v)) as [IH1 IH2].
    rewrite IH1, IH2. unfold pctDensity_step, keep.
    cbn [andb negb]. destruct (Qgtb v 0); cbn [fst snd].
    + rewrite enclosed_cons, sumList_cons.
      destruct (Qgeb v r); split; ring.
    + split; reflexivity.
Qed.

(** The mirror image of the isovalue-to-percentage loop. *)
Lemma pctDensity_fold_mirror (x : Q) (l : list Q) (st st' : Q * Q) :
  fst st' == - fst st -> snd st' == - snd st ->
  fst (fold_left (pctDensity_step (- x) false) (map Qopp l) st')
  == - fst (fold_left (pctDensity_step x true) l st)
  /\ snd (fold_left (pctDensity_step (- x) false) (map Qopp l) st')
     == - snd (fold_left (pctDensity_step x true) l st).
Proof.
  revert st st'. induction l as [|v t IH]; intros [t0 i0] [t1 i1] H1 H2;
    cbn [map fold_left]; [now split|].
  apply IH; cbn [fst snd] in *; unfold pctDensity_step; cbn [andb negb];
    rewrite <- (Qopp_opp_eq 0) at 1; change (- 0) with 0;
    rewrite Qltb_opp, Qleb_opp;
    destruct (Qgtb v 0); cbn [fst snd]; try lra;
    destruct (Qgeb v x); lra.
Qed.

Lemma density_percentage_mirror (l : list Q) (x q : Q) :
  computePercentageFromIsovalue_Density l x true = Ok q ->
  exists q',
    computePercentageFromIsovalue_Density (map Qopp l) (- x) false = Ok q'
    /\ q' == q.
Proof.
  unfold computePercentageFromIsovalue_Density.
  destruct (pctDensity_fold_mirror x l (0, 0) (0, 0)) as [H1 H2];
    [reflexivity | reflexivity |].
  destruct (fold_left (pctDensity_step x true) l (0, 0)) as [t i].
  destruct (fold_left _ (map Qopp l) (0, 0)) as [t' i'].
  cbn [fst snd] in *.
  destruct (Qeq_bool t 0) eqn:E; [discriminate|]. intros [= <-].
  apply Qeq_bool_false in E.
  assert (E' : Qeq_bool t' 0 = false).
  { apply not_true_iff_false. rewrite Qeq_bool_iff. lra. }
  rewrite E'. eexists. split; [reflexivity|].
  rewrite H1, H2. field. exact E.
Qed.

(** The percentage that comes back, in terms of a lower bound [x] on the
    enclosed sum. *)
Lemma percentage_bounds (p t i x : Q) :
  0 < t -> 0 <= i -> i <= t -> x <= i ->
  (p / 100 * t <= x \/ x == t) ->
  (p <= 100 -> p <= i / t * 100) /\ (100 <= p -> i / t * 100 == 100).
Proof.
  intros Ht Hi0 Hit Hx Hcase.
  destruct (ratio_range_pos i t Ht Hi0 Hit) as [_ Hle].
  destruct Hcase as [Hc|Hc].
  - assert (Hp : p / 100 <= i / t) by (apply Qle_shift_div_l; lra).
    assert (Ep : p == p / 100 * 100) by field.
    revert Hp Ep Hle. generalize (i / t) (p / 100). intros b a Hp Ep Hle.
    split; intros; lra.
  - assert (E : i / t == 1).
    { assert (Ei : i == t) by lra. rewrite Ei. field. lra. }
    rewrite E. split; intros; lra.
Qed.

Lemma consistency_positive (values : list Q) (percent r : Q) :
  computeIsovalueFromPercentage_Density values percent true = Ok r ->
  exists q,
    computePercentageFromIsovalue_Density values r true = Ok q
    /\ (percent <= 100 -> percent <= q)
    /\ (100 <= percent -> q == 100).
Proof.
  intros Hiso.
  assert (Hne : filter (keep true) values <> []).
  { intros E. unfold computeIsovalueFromPercentage_Density in Hiso.
    rewrite E in Hiso. discriminate. }
  set (f := filter (keep true) values) in *.
  pose proof (filter_keep_true_pos values) as Hpos. fold f in Hpos.
  pose proof (sumList_pos f Hne Hpos) as HT.
  pose proof (sort_by_perm Qgtb f) as Hperm.
  pose proof (sort_desc_sorted f) as Hsorted.
  assert (Hspos : Forall (fun v => 0 < v) (sort_by Qgtb f)).
  { eapply Permutation_Forall; [symmetry; exact Hperm | exact Hpos]. }
  (* the enclosed sum is at least the target, or everything *)
  assert (Hcase : percent / 100 * sumList f <= enclosed r f
                  \/ enclosed r f == sumList f).
  { rewrite density_isovalue_positive in Hiso by exact Hne.
    fold f in Hiso. injection Hiso as Hr. unfold pickPositive in Hr.
    rewrite <- (enclosed_perm r _ _ Hperm).
    destruct (accumulate Qgeb _ (sort_by Qgtb f) 0) as [v|] eqn:Eacc.
    - subst v. left.
      pose proof (enclosed_ge_cross _ _ _ _ Hsorted Hspos Eacc). lra.
    - right. rewrite (sumList_perm _ _ (Permutation_sym Hperm)).
      apply enclosed_all. intros w Hw. subst r.
      now apply descending_last_le. }
  (* the loop of the other direction *)
  unfold computePercentageFromIsovalue_Density.
  destruct (pctDensity_fold_true r values (0, 0)) as [H1 H2].
  pose proof (pctDensity_fold_between r true values (0, 0)) as Hb.
  destruct (fold_left (pctDensity_step r true) values (0, 0)) as [t i].
  cbn [fst snd] in *. fold f in H1, H2.
  assert (Hb' : 0 <= i /\ i <= t) by (apply Hb; cbn; lra).
  assert (E : Qeq_bool t 0 = false).
  { apply not_true_iff_false. rewrite Qeq_bool_iff. lra. }
  rewrite E. eexists. split; [reflexivity|].
  assert (Et : t == sumList f) by lra.
  apply percentage_bounds with (x := enclosed r f); [lra | lra | lra | lra |].
  rewrite Et. exact Hcase.
Qed.

Lemma map_opp_opp (l : list Q) : map Qopp (map Qopp l) = l.
Proof.
  rewrite map_map. rewrite <- (map_id l) at 2.
  apply map_ext. apply Qopp_opp_eq.
Qed.

(** ** Case-insensitive search *)

Lemma lower_nil_inv (s : string) : lower s = EmptyString -> s = EmptyString.
Proof. destruct s; [reflexivity | discriminate]. Qed.

Lemma matchesAt_spec (substr data : string) :
  matchesAt data substr = true
  <-> exists mid post,
      data = (mid ++ post)%string /\ lower mid = lower substr.
Proof.
  revert data. induction substr as [|c2 t2 IH]; intros data.
  - split; [intros _ | destruct data; reflexivity].
    exists EmptyString, data. now split.
  - destruct data as [|c1 t1]; cbn [matchesAt].
    + split; [discriminate|].
      intros ([|c m] & post & E & L); discriminate.
    + rewrite andb_true_iff, IH. unfold eq_nocase. rewrite Ascii.eqb_eq.
      split.
      * intros (Hc & mid & post & -> & L).
        exists (String c1 mid), post. cbn. now rewrite Hc, L.
      * intros ([|c m] & post & E & L); [discriminate|].
        cbn in E, L. injection E as <- ->. injection L as Hc L.
        split; [exact Hc|]. now exists m, post.
Qed.

Lemma search_le (data substr : string) :
  (search data substr <= String.length data)%nat.
Proof.
  induction data as [|c t IH]; cbn [search String.length]; [lia|].
  destruct (matchesAt (String c t) substr); lia.
Qed.

Lemma search_spec (data substr : string) :
  substr <> EmptyString ->
  (search data substr < String.length data)%nat
  <-> containsNoCase data substr.
Proof.
  intros Hne. unfold containsNoCase.
  induction data as [|c t IH]; cbn [search String.length].
  - split; [lia|]. intros ([|? ?] & [|? ?] & post & E & L); try discriminate.
    symmetry in L. apply lower_nil_inv in L. contradiction.
  - destruct (matchesAt (String c t) substr) eqn:M.
    + split; [intros _ | lia].
      apply matchesAt_spec in M as (mid & post & E & L).
      now exists EmptyString, mid, post.
    + rewrite <- Nat.succ_lt_mono, IH. split.
      * intros (pre & mid & post & -> & L).
        now exists (String c pre), mid, post.
      * intros ([|c' pre] & mid & post & E & L).
        -- assert (M' : matchesAt (String c t) substr = true)
             by (apply matchesAt_spec; now exists mid, post).
           congruence.
        -- cbn in E. injection E as <- ->. now exists pre, mid, post.
Qed.

Lemma icontains_spec (data substr : string) :
  substr <> EmptyString ->
  icontains data substr = true <-> containsNoCase data substr.
Proof.
  intros Hne. rewrite <- search_spec by exact Hne.
  unfold icontains. rewrite negb_true_iff, Nat.eqb_neq.
  pose proof (search_le data substr). lia.
Qed.

Lemma icontains_false (data substr : string) :
  substr <> EmptyString ->
  icontains data substr = false <-> ~ containsNoCase data substr.
Proof.
  intros Hne. rewrite <- icontains_spec by exact Hne.
  now rewrite not_true_iff_false.
Qed.

(** ** The value loop has fuel enough *)

Lemma scanDigits_length (s : string) (acc : Z) (count : nat) :
  let '(_, count', rest) := scanDigits s acc count in
  (String.length rest + count' = String.length s + count)%nat.
Proof.
  revert acc count. induction s as [|c t IH]; intros acc count;
    cbn [scanDigits]; [reflexivity|].
  destruct (digitValue c) as [d|]; [|reflexivity].
  specialize (IH (10 * acc + d)%Z (S count)).
  destruct (scanDigits t _ _) as [[m count'] rest]. cbn [String.length]. lia.
Qed.

Lemma skipws_length (s : string) :
  (String.length (skipws s) <= String.length s)%nat.
Proof.
  induction s as [|c t IH]; cbn [skipws]; [lia|].
  destruct (isWs c); cbn [String.length]; lia.
Qed.

Lemma scanSign_length (s : string) :
  (String.length (snd (scanSign s)) <= String.length s)%nat.
Proof.
  destruct s as [|c t]; [cbn; lia|].
  unfold scanSign.
  destruct c as [[] [] [] [] [] [] [] []]; cbn [snd String.length]; lia.
Qed.

Lemma scanExponent_length (s : string) (e : Z) (rest : string) :
  scanExponent s = Some (e, rest) ->
  (String.length rest <= String.length s)%nat.
Proof.
  destruct s as [|c t]; cbn [scanExponent]; [now intros [= <- <-]|].
  destruct (Ascii.eqb c "e" || Ascii.eqb c "E"); [|now intros [= <- <-]].
  pose proof (scanSign_length t) as Hs.
  destruct (scanSign t) as [neg s1]. cbn [snd] in Hs.
  pose proof (scanDigits_length s1 0%Z O) as Hd.
  destruct (scanDigits s1 0%Z O) as [[m count] r].
  destruct (count =? 0)%nat; [discriminate|].
  intros [= <- <-]. cbn [String.length]. lia.
Qed.

(** A successful extraction of a [double] consumes at least one
    character. *)
Lemma scanDouble_consumes (s : string) (q : Q) (rest : string) :
  scanDouble s = Some (q, rest) ->
  (String.length rest < String.length s)%nat.
Proof.
  unfold scanDouble.
  pose proof (skipws_length s) as Hw.
  pose proof (scanSign_length (skipws s)) as Hs.
  destruct (scanSign (skipws s)) as [neg s1]. cbn [snd] in Hs.
  pose proof (scanDigits_length s1 0%Z O) as H1.
  destruct (scanDigits s1 0%Z O) as [[ip n1] s2].
  assert (H2 : let '(_, n2, s3) :=
                 match s2 with
                 | String "." t => scanDigits t ip O
                 | _ => (ip, O, s2)
                 end in
               (String.length s3 + n2 <= String.length s2)%nat).
  { destruct s2 as [|c t]; [cbn; lia|].
    destruct (Ascii.eqb c ".") eqn:Ec.
    - apply Ascii.eqb_eq in Ec. subst c.
      pose proof (scanDigits_length t ip O) as Hd.
      destruct (scanDigits t ip O) as [[m n2] s3].
      cbn [String.length]. lia.
    - destruct c as [[] [] [] [] [] [] [] []]; try discriminate Ec;
        cbn [String.length]; lia. }
  destruct (match s2 with
            | String "." t => scanDigits t ip O
            | _ => (ip, O, s2)
            end) as [[m n2] s3].
  destruct (n1 + n2 =? 0)%nat eqn:En; [discriminate|].
  apply Nat.eqb_neq in En.
  destruct (scanExponent s3) as [[e r]|] eqn:Ee; [|discriminate].
  apply scanExponent_length in Ee.
  intros [= _ <-]. lia.
Qed.

Lemma readValues_fuel (n m : nat) (infile : istream) (vals : list Q) :
  (String.length (buf infile) < n)%nat ->
  (String.length (buf infile) < m)%nat ->
  readValues n infile vals = readValues m infile vals.
Proof.
  revert m infile vals. induction n as [|n IH]; intros m infile vals Hn Hm;
    [lia|].
  destruct m as [|m]; [lia|]. cbn [readValues].
  destruct (good infile); [|reflexivity].
  destruct (scanDouble (buf infile)) as [[val rest]|] eqn:E; [|reflexivity].
  apply scanDouble_consumes in E.
  apply IH; cbn [buf]; lia.
Qed.

(** ** The count check of [readCubeFile] *)

(** Without wrap-around the expected count is the product of the three
    dimensions. *)
Lemma totalPoints_exact (d0 d1 d2 : Z) :
  (0 <= d0 -> 0 <= d1 -> 0 <= d2 -> d0 * d1 * d2 < SIZE_MODULUS ->
   totalPoints [d0; d1; d2] = d0 * d1 * d2)%Z.
Proof.
  intros H0 H1 H2 Hlt.
  unfold totalPoints, mul_size_t, to_size_t. cbn [nth].
  rewrite <- (Z.mul_mod d0 d1) by (unfold SIZE_MODULUS; lia).
  rewrite <- (Z.mul_mod (d0 * d1) d2) by (unfold SIZE_MODULUS; lia).
  apply Z.mod_small. nia.
Qed.

(** The model on ordinary files: the grid comes back in file order, and a
    missing value is reported with both counts. *)
Example readCubeFile_smallFile :
  result_map values (readCubeFile (fun _ => Some smallFile) "small.cube")
  = Ok [1; 2; 3; 4; 5 # 10; - (6); 725 # 100; 8].
Proof. vm_compute. reflexivity. Qed.

Example readCubeFile_shortFile :
  readCubeFile (fun _ => Some shortFile) "short.cube"
  = Err (CountMismatchError 7 8).
Proof. vm_compute. reflexivity. Qed.

Example readCubeFile_missing :
  readCubeFile (fun _ => None) "missing.cube" = Err (IOError "missing.cube").
Proof. reflexivity. Qed.

Example what_count_mismatch :
  what (CountMismatchError 7 8)
  = "Error: Number of grid points read (7) does not match expected (8)."%string.
Proof. reflexivity. Qed.

(** What the final check does: a header followed by a number of values
    other than [totalPoints] is rejected, with both counts in the error. *)
Lemma readCubeFile_count_mismatch fs filename cube :
  readCubeFile_unchecked fs filename = Ok cube ->
  size cube <> totalPoints (dims (header cube)) ->
  readCubeFile fs filename
  = Err (CountMismatchError (size cube) (totalPoints (dims (header cube)))).
Proof.
  intros H Hne. unfold readCubeFile. rewrite H. cbn [bind].
  apply Z.eqb_neq in Hne. now rewrite Hne.
Qed.

Lemma readCubeFile_count_mismatch_exact fs filename cube (d0 d1 d2 : Z) :
  readCubeFile_unchecked fs filename = Ok cube ->
  dims (header cube) = [d0; d1; d2] ->
  (0 <= d0)%Z -> (0 <= d1)%Z -> (0 <= d2)%Z ->
  (d0 * d1 * d2 < SIZE_MODULUS)%Z ->
  (size cube <> d0 * d1 * d2)%Z ->
  readCubeFile fs filename
  = Err (CountMismatchError (size cube) (d0 * d1 * d2)%Z).
Proof.
  intros H Hd H0 H1 H2 Hlt Hne.
  rewrite <- (totalPoints_exact d0 d1 d2) in * by assumption.
  rewrite <- Hd in *. now apply readCubeFile_count_mismatch.
Qed.

Lemma readCubeFile_count_ok fs filename cube :
  readCubeFile fs filename = Ok cube ->
  size cube = totalPoints (dims (header cube)).
Proof.
  unfold readCubeFile.
  destruct (readCubeFile_unchecked fs filename) as [c|e]; [|discriminate].
  cbn [bind].
  destruct (size c =? totalPoints (dims (header c)))%Z eqn:E;
    [|discriminate].
  intros [= <-]. now apply Z.eqb_eq.
Qed.

(** C5: on the grid [1; 2; 3; 4] with percent 50 and the positive sign the
    filtered total is 10, the target is 5, the descending order is
    [4; 3; 2; 1], and the function returns 3, the value at which the running
    sum 4 + 3 = 7 first reaches the target. *)
Theorem C5_worked_example :
  let values := [1; 2; 3; 4] in
  let filtered := filter (keep true) values in
  sumList filtered == 10 /\
  (50 / 100) * sumList filtered == 5 /\
  sort_by Qgtb filtered = [4; 3; 2; 1] /\
  accumulate Qgeb 5 [4] 0 = None /\
  accumulate Qgeb 5 [4; 3; 2; 1] 0 = Some 3 /\
  computeIsovalueFromPercentage_Density values 50 true = Ok 3.
Proof.
  cbv zeta. repeat split; vm_compute; reflexivity.
Qed.

(** C9: mirror symmetry of the density branches.  On the element-wise
    negated grid with the negative sign the function returns the negation of
    what it returns on the original grid with the positive sign, and it
    fails with NoMatchingSignError on the one exactly when it does on the
    other. *)
Theorem C9_density_mirror (values : list Q) (percent : Q) :
  computeIsovalueFromPercentage_Density (map Qopp values) percent false
  = result_map Qopp
      (computeIsovalueFromPercentage_Density values percent true)
  /\ (computeIsovalueFromPercentage_Density (map Qopp values) percent false
      = Err NoMatchingSignError
      <-> computeIsovalueFromPercentage_Density values percent true
          = Err NoMatchingSignError).
Proof.
  split; [apply density_isovalue_mirror|].
  rewrite density_isovalue_mirror.
  destruct (computeIsovalueFromPercentage_Density values percent true);
    cbn; split; congruence.
Qed.

(** C2, as stated, fails for the percentage-to-isovalue direction: on the
    one-point grid [1] the function returns the raw value [1], on the negated
    grid [-1] it returns [-1]. *)
Lemma C2_counterexample :
  computeIsovalueFromPercentage_Orbital (map Qopp [1]) 50 true = Ok (- (1))
  /\ computeIsovalueFromPercentage_Orbital [1] 50 true = Ok 1
  /\ ~ - (1) == 1.
Proof.
  repeat split. intros H. discriminate H.
Qed.

(** C2, amended: negating every value of a non-empty grid negates the raw
    isovalue returned by [computeIsovalueFromPercentage_Orbital] and leaves
    the output of [computePercentageFromIsovalue_Orbital] unchanged, for
    every percent, isovalue and sign flag. *)
Theorem C2_orbital_negation
        (values : list Q) (percent isovalue : Q) (sign : bool) :
  values <> [] ->
  computeIsovalueFromPercentage_Orbital (map Qopp values) percent sign
  = result_map Qopp
      (computeIsovalueFromPercentage_Orbital values percent sign)
  /\ computePercentageFromIsovalue_Orbital (map Qopp values) isovalue sign
     = computePercentageFromIsovalue_Orbital values isovalue sign.
Proof.
  intros _. split;
    [apply orbital_isovalue_opp | apply orbital_percentage_opp].
Qed.

Lemma C2_orbital_negation_witness :
  [1; -2; 3] <> []
  /\ computeIsovalueFromPercentage_Orbital (map Qopp [1; -2; 3]) 50 false
  = result_map Qopp
      (computeIsovalueFromPercentage_Orbital [1; -2; 3] 50 false)
  /\ computePercentageFromIsovalue_Orbital (map Qopp [1; -2; 3]) 2 false
     = computePercentageFromIsovalue_Orbital [1; -2; 3] 2 false.
Proof.
  split; [discriminate|].
  apply (C2_orbital_negation [1; -2; 3] 50 2 false). discriminate.
Defined.

(** C10: range of the percentages.  Whenever one of the two
    isovalue-to-percentage functions returns (that is, does not fail with
    ZeroTotalError), the percentage it returns lies in [0, 100]. *)
Theorem C10_percentage_range
        (values : list Q) (isovalue : Q) (sign : bool) (r : Q) :
  computePercentageFromIsovalue_Density values isovalue sign = Ok r
  \/ computePercentageFromIsovalue_Orbital values isovalue sign = Ok r ->
  0 <= r /\ r <= 100.
Proof.
  intros [H|H].
  - unfold computePercentageFromIsovalue_Density in H.
    pose proof (pctDensity_fold_between isovalue sign values (0, 0)) as Hb.
    destruct (fold_left _ values (0, 0)) as [total integ].
    destruct (Qeq_bool total 0) eqn:E; [discriminate|].
    injection H as <-. apply Qeq_bool_false in E.
    apply (ratio_range sign (total, integ)); [|exact E].
    apply Hb. destruct sign; cbn; lra.
  - unfold computePercentageFromIsovalue_Orbital in H.
    pose proof (pctOrbital_fold_between (isovalue * isovalue) values (0, 0))
      as Hb.
    destruct (fold_left _ values (0, 0)) as [total integ].
    destruct (Qeq_bool total 0) eqn:E; [discriminate|].
    injection H as <-. apply Qeq_bool_false in E.
    apply (ratio_range true (total, integ)); [|exact E].
    apply Hb. cbn; lra.
Qed.

Lemma C10_percentage_range_witness :
  (computePercentageFromIsovalue_Density [1; -2; 3] 2 true = Ok (3 / 4 * 100)
   \/ computePercentageFromIsovalue_Orbital [1; -2; 3] 2 true
      = Ok (3 / 4 * 100))
  /\ 0 <= 3 / 4 * 100 /\ 3 / 4 * 100 <= 100.
Proof.
  assert (H : computePercentageFromIsovalue_Density [1; -2; 3] 2 true
              = Ok (3 / 4 * 100)
              \/ computePercentageFromIsovalue_Orbital [1; -2; 3] 2 true
                 = Ok (3 / 4 * 100)) by (left; reflexivity).
  split; [exact H|].
  exact (C10_percentage_range [1; -2; 3] 2 true (3 / 4 * 100) H).
Defined.

(** C7: on a grid whose values are all zero both isovalue-to-percentage
    functions fail with ZeroTotalError, for every isovalue and sign flag. *)
Theorem C7_all_zero_grid (values : list Q) (isovalue : Q) (sign : bool) :
  Forall (fun v => v == 0) values ->
  computePercentageFromIsovalue_Density values isovalue sign
  = Err ZeroTotalError_Density
  /\ computePercentageFromIsovalue_Orbital values isovalue sign
     = Err ZeroTotalError_Orbital.
Proof.
  intros Hall. split.
  - unfold computePercentageFromIsovalue_Density.
    now rewrite pctDensity_fold_zero.
  - unfold computePercentageFromIsovalue_Orbital.
    pose proof (pctOrbital_fold_zero (isovalue * isovalue) values (0, 0) Hall)
      as Hz.
    destruct (fold_left _ values (0, 0)) as [total integ]. cbn [fst] in Hz.
    assert (E : Qeq_bool total 0 = true)
      by (apply Qeq_bool_iff, Hz; reflexivity).
    now rewrite E.
Qed.

Lemma C7_all_zero_grid_witness :
  Forall (fun v => v == 0) [0; 0 # 5; 0]
  /\ computePercentageFromIsovalue_Density [0; 0 # 5; 0] (1 # 2) false
     = Err ZeroTotalError_Density
  /\ computePercentageFromIsovalue_Orbital [0; 0 # 5; 0] (1 # 2) false
     = Err ZeroTotalError_Orbital.
Proof.
  assert (H : Forall (fun v => v == 0) [0; 0 # 5; 0])
    by (repeat constructor).
  split; [exact H|].
  exact (C7_all_zero_grid [0; 0 # 5; 0] (1 # 2) false H).
Defined.

(** C3: [convertDensity] divides by the cube of 0.529177210544 whatever the
    flag says; both values of the flag give the same result. *)
Theorem C3_convertDensity_unconditional (v : Q) (nativeIsAngstrom : bool) :
  convertDensity v nativeIsAngstrom
  = v / 0.529177210544 ^ 3
  /\ convertDensity v true = convertDensity v false.
Proof.
  split; reflexivity.
Qed.

(** The positive branch is monotone in the percent, in exact
    arithmetic. *)
Lemma density_positive_monotone_exact (values : list Q) (p1 p2 : Q) :
  Exists (fun v => 0 < v) values ->
  p1 <= p2 ->
  exists r1 r2,
    computeIsovalueFromPercentage_Density values p1 true = Ok r1
    /\ computeIsovalueFromPercentage_Density values p2 true = Ok r2
    /\ r2 <= r1.
Proof.
  intros Hex H12.
  pose proof (exists_positive_filter values Hex) as Hne.
  rewrite !density_isovalue_positive by exact Hne.
  eexists. eexists. split; [reflexivity|]. split; [reflexivity|].
  apply pickPositive_mono; [apply sort_desc_sorted|].
  assert (0 < sumList (filter (keep true) values))
    by (apply sumList_pos; [exact Hne | apply filter_keep_true_pos]).
  apply Qmult_le_compat_r; [|lra].
  apply Qmult_le_compat_r; [exact H12|]. apply Qinv_le_0_compat. lra.
Qed.

(** C4, as stated, fails where the sum of the positive values overflows.
    On the grid [2^1023; 2^1023; 1] the total is infinite; at percent 0 the
    target [0 * inf] is not a number, no running sum reaches it, and the
    function falls back to the last sorted value, 1; at percent 50 the
    target is infinite and the function returns 2^1023, which is larger. *)
Lemma C4_counterexample :
  let values := [0x1p+1023; 0x1p+1023; 1]%float in
  Binary64.sumList values = infinity
  /\ (0 <=? 0)%float = true /\ (0 <=? 50)%float = true
  /\ (50 <=? 100)%float = true
  /\ Binary64.computeIsovalueFromPercentage_Density values 0 true = Ok 1%float
  /\ Binary64.computeIsovalueFromPercentage_Density values 50 true
     = Ok 0x1p+1023%float
  /\ (0x1p+1023 <=? 1)%float = false.
Proof.
  cbv zeta. repeat split; vm_compute; reflexivity.
Qed.

(** C4, amended: on a grid with at least one strictly positive value whose
    strictly positive values add up to at most 2^1023, so that the total
    does not overflow, the function returns for all percents in [0, 100],
    and a larger percent never gives a larger isovalue. *)
Theorem C4_density_positive_monotone (values : list Q) (p1 p2 : Q) :
  Exists (fun v => 0 < v) values ->
  sumList (filter (keep true) values) <= 2 ^ 1023 ->
  0 <= p1 -> p1 <= p2 -> p2 <= 100 ->
  exists r1 r2,
    computeIsovalueFromPercentage_Density values p1 true = Ok r1
    /\ computeIsovalueFromPercentage_Density values p2 true = Ok r2
    /\ r2 <= r1.
Proof.
  intros Hex _ _ H12 _. now apply density_positive_monotone_exact.
Qed.

Lemma C4_density_positive_monotone_witness :
  Exists (fun v => 0 < v) [1; 2; 3; 4]
  /\ sumList (filter (keep true) [1; 2; 3; 4]) <= 2 ^ 1023
  /\ 0 <= 20 /\ 20 <= 50 /\ 50 <= 100
  /\ exists r1 r2,
      computeIsovalueFromPercentage_Density [1; 2; 3; 4] 20 true = Ok r1
      /\ computeIsovalueFromPercentage_Density [1; 2; 3; 4] 50 true = Ok r2
      /\ r2 <= r1.
Proof.
  assert (Hex : Exists (fun v => 0 < v) [1; 2; 3; 4])
    by (left; reflexivity).
  assert (Hs : sumList (filter (keep true) [1; 2; 3; 4]) <= 2 ^ 1023)
    by (vm_compute; discriminate).
  assert (H0 : 0 <= 20) by discriminate.
  assert (H1 : 20 <= 50) by discriminate.
  assert (H2 : 50 <= 100) by discriminate.
  split; [exact Hex|]. split; [exact Hs|]. split; [exact H0|].
  split; [exact H1|]. split; [exact H2|].
  exact (C4_density_positive_monotone [1; 2; 3; 4] 20 50 Hex Hs H0 H1 H2).
Defined.

(** C1, as stated, fails: on the grid [1; 2; 3; 4] at 50 percent the
    returned isovalue is 3, and feeding 3 back gives 70 percent, which is
    more than 50. *)
Lemma C1_counterexample :
  computeIsovalueFromPercentage_Density [1; 2; 3; 4] 50 true = Ok 3
  /\ exists q,
      computePercentageFromIsovalue_Density [1; 2; 3; 4] 3 true = Ok q
      /\ q == 70 /\ ~ q <= 50.
Proof.
  split; [reflexivity|].
  eexists. split; [reflexivity|]. split; [reflexivity|].
  intros H. now apply H.
Qed.

(** In exact arithmetic the percentage that comes back is at least the
    percent asked for when that is at most 100, and 100 when it is 100 or
    more. *)
Lemma density_consistency_exact
      (values : list Q) (percent : Q) (sign : bool) (r : Q) :
  computeIsovalueFromPercentage_Density values percent sign = Ok r ->
  exists q,
    computePercentageFromIsovalue_Density values r sign = Ok q
    /\ (percent <= 100 -> percent <= q)
    /\ (100 <= percent -> q == 100).
Proof.
  destruct sign; [apply consistency_positive|].
  intros Hiso.
  rewrite <- (map_opp_opp values), density_isovalue_mirror in Hiso.
  destruct (computeIsovalueFromPercentage_Density (map Qopp values) percent
              true) as [r'|e] eqn:E; [|discriminate].
  injection Hiso as <-.
  destruct (consistency_positive _ _ _ E) as (q & Hq & Hlo & Hhi).
  destruct (density_percentage_mirror _ _ _ Hq) as (q' & Hq' & Eq).
  rewrite map_opp_opp in Hq'.
  exists q'. split; [exact Hq'|]. rewrite Eq. now split.
Qed.

(** With rounding the percentage that comes back can also fall below the
    percent asked for: on the grid [0.1; 2.7; 0.8] at 75 percent the program
    returns 2.7, and 2.7 fed back gives a little less than 75. *)
Example density_round_trip_rounded :
  let values := [0x1.999999999999ap-4; 0x1.599999999999ap+1;
                 0x1.999999999999ap-1]%float in
  Binary64.computeIsovalueFromPercentage_Density values 75 true
  = Ok 0x1.599999999999ap+1%float
  /\ exists q,
      Binary64.computePercentageFromIsovalue_Density
        values 0x1.599999999999ap+1 true = Ok q
      /\ (q <? 75)%float = true.
Proof.
  cbv zeta. split; [vm_compute; reflexivity|].
  eexists. split; vm_compute; reflexivity.
Qed.

(** C1, amended: whenever [computeIsovalueFromPercentage_Density] returns an
    isovalue [r], feeding [r] back into
    [computePercentageFromIsovalue_Density] with the same sign does not
    fail: it returns a percentage.  That percentage is not bounded by the
    percent asked for. *)
Theorem C1_density_round_trip
        (values : list Q) (percent : Q) (sign : bool) (r : Q) :
  computeIsovalueFromPercentage_Density values percent sign = Ok r ->
  exists q, computePercentageFromIsovalue_Density values r sign = Ok q.
Proof.
  intros Hiso.
  destruct (density_consistency_exact _ _ _ _ Hiso) as (q & Hq & _).
  now exists q.
Qed.

Lemma C1_density_round_trip_witness :
  computeIsovalueFromPercentage_Density [1; -2; 3; -6] 50 false = Ok (- (6))
  /\ exists q,
      computePercentageFromIsovalue_Density [1; -2; 3; -6] (- (6)) false
      = Ok q.
Proof.
  assert (H : computeIsovalueFromPercentage_Density [1; -2; 3; -6] 50 false
              = Ok (- (6))) by reflexivity.
  split; [exact H|].
  exact (C1_density_round_trip [1; -2; 3; -6] 50 false (- (6)) H).
Defined.

(** [detectAngstrom] on a few headers: the keywords decide first, in any
    letter case and with "angstrom" before "bohr"; without a keyword the
    average axis length decides, and an average of exactly 2 is not enough. *)
Example detectAngstrom_keyword_angstrom :
  Binary64.detectAngstrom
    (floatHeader "grid in ANGSTROM, not bohr"
       [[2; 0.125; 0; 0]; [2; 0; 0.125; 0]; [2; 0; 0; 0.125]]%float)
  = true.
Proof. vm_compute. reflexivity. Qed.

Example detectAngstrom_keyword_bohr :
  Binary64.detectAngstrom
    (floatHeader "Bohr" [[2; 8; 0; 0]; [2; 0; 8; 0]; [2; 0; 0; 8]]%float)
  = false.
Proof. vm_compute. reflexivity. Qed.

Example detectAngstrom_long_axes :
  Binary64.detectAngstrom
    (floatHeader "cube" [[2; 3; 4; 0]; [2; 0; 3; 4]; [2; 4; 0; 3]]%float)
  = true.
Proof. vm_compute. reflexivity. Qed.

Example detectAngstrom_average_two :
  Binary64.detectAngstrom
    (floatHeader "cube" [[2; 2; 0; 0]; [2; 0; 2; 0]; [2; 0; 0; 2]]%float)
  = false.
Proof. vm_compute. reflexivity. Qed.

(** C8: [detectAngstrom] on a header, whose axis table has three rows
    [n, x, y, z].  It is a total boolean function and exactly one of three
    cases applies.  It is [true] when a comment contains "angstrom"
    case-insensitively; otherwise [false] when a comment contains "bohr"
    case-insensitively; otherwise it is the truth value of "the average of
    the Euclidean norms [sqrt (x*x + y*y + z*z)] of the three axis direction
    vectors is greater than 2", in the binary64 arithmetic of the program. *)
Theorem C8_detectAngstrom
        (h : Binary64.CubeHeader)
        (n0 x0 y0 z0 n1 x1 y1 z1 n2 x2 y2 z2 : float) :
  Binary64.axisVectors h
  = [[n0; x0; y0; z0]; [n1; x1; y1; z1]; [n2; x2; y2; z2]] ->
  let angstrom := containsNoCase (Binary64.comment1 h) "angstrom"
                  \/ containsNoCase (Binary64.comment2 h) "angstrom" in
  let bohr := containsNoCase (Binary64.comment1 h) "bohr"
              \/ containsNoCase (Binary64.comment2 h) "bohr" in
  let average := average3 (euclideanNorm x0 y0 z0) (euclideanNorm x1 y1 z1)
                          (euclideanNorm x2 y2 z2) in
  (angstrom /\ Binary64.detectAngstrom h = true)
  \/ (~ angstrom /\ bohr /\ Binary64.detectAngstrom h = false)
  \/ (~ angstrom /\ ~ bohr
      /\ Binary64.detectAngstrom h = (2 <? average)%float).
Proof.
  intros Haxes. cbv zeta.
  assert (Ha : "angstrom"%string <> EmptyString) by discriminate.
  assert (Hb : "bohr"%string <> EmptyString) by discriminate.
  rewrite <- !(icontains_spec _ "angstrom") by exact Ha.
  rewrite <- !(icontains_spec _ "bohr") by exact Hb.
  rewrite <- !orb_true_iff. unfold Binary64.detectAngstrom.
  destruct (icontains (Binary64.comment1 h) "angstrom"
            || icontains (Binary64.comment2 h) "angstrom"); [now left|].
  right.
  destruct (icontains (Binary64.comment1 h) "bohr"
            || icontains (Binary64.comment2 h) "bohr");
    [left; repeat split; congruence|].
  right. repeat split; try congruence.
  unfold Binary64.axis. rewrite Haxes. reflexivity.
Qed.

Lemma C8_detectAngstrom_witness :
  let h := floatHeader "Total SCF density"
             [[2; 3; 4; 0]; [2; 0; 0.25; 0]; [2; 0; 0; 0.5]]%float in
  Binary64.axisVectors h
  = [[2; 3; 4; 0]; [2; 0; 0.25; 0]; [2; 0; 0; 0.5]]%float
  /\ let angstrom := containsNoCase (Binary64.comment1 h) "angstrom"
                     \/ containsNoCase (Binary64.comment2 h) "angstrom" in
     let bohr := containsNoCase (Binary64.comment1 h) "bohr"
                 \/ containsNoCase (Binary64.comment2 h) "bohr" in
     let average :=
       average3 (euclideanNorm 3 4 0) (euclideanNorm 0 0.25 0)
                (euclideanNorm 0 0 0.5) in
     (angstrom /\ Binary64.detectAngstrom h = true)
     \/ (~ angstrom /\ bohr /\ Binary64.detectAngstrom h = false)
     \/ (~ angstrom /\ ~ bohr
         /\ Binary64.detectAngstrom h = (2 <? average)%float).
Proof.
  cbv zeta.
  assert (H : Binary64.axisVectors
                (floatHeader "Total SCF density"
                   [[2; 3; 4; 0]; [2; 0; 0.25; 0]; [2; 0; 0; 0.5]]%float)
              = [[2; 3; 4; 0]; [2; 0; 0.25; 0]; [2; 0; 0; 0.5]]%float)
    by reflexivity.
  split; [exact H|].
  exact (C8_detectAngstrom _ _ _ _ _ _ _ _ _ _ _ _ _ H).
Defined.

(** C6 does not hold where the product of the dimensions wraps around in
    [size_t].  [overflowFile] has a well-formed header with dimensions
    4194304, 2097152 and 2097152 and no grid value at all.  The number of
    values read, 0, differs from the product of the dimensions, 2^64, and
    yet [readCubeFile] returns a header and an empty grid instead of
    failing with CountMismatchError: the expected count it computes is 0. *)
Theorem C6_count_check_wraps :
  exists cube,
    readCubeFile (fun _ => Some overflowFile) "big.cube" = Ok cube
    /\ dims (header cube) = [4194304; 2097152; 2097152]%Z
    /\ values cube = []
    /\ totalPoints (dims (header cube)) = 0%Z
    /\ (size cube <> 4194304 * 2097152 * 2097152)%Z.
Proof.
  eexists. split; [vm_compute; reflexivity|].
  cbn [header dims values]. repeat split. discriminate.
Qed.

(* ================================================================== *)
(** * Part III: further properties of the code *)
(* ================================================================== *)

(** ** Density mode: what is returned and when it fails *)

Lemma sumList_neg (l : list Q) :
  l <> [] -> Forall (fun v => v < 0) l -> sumList l < 0.
Proof.
  intros Hne Hall.
  assert (H : 0 < sumList (map Qopp l)).
  { apply sumList_pos; [destruct l; [congruence | discriminate]|].
    apply Forall_map. eapply Forall_impl; [|exact Hall].
    intros a Ha. cbv beta in *. lra. }
  rewrite sumList_map_opp in H. lra.
Qed.

Lemma filter_keep_false_neg (l : list Q) :
  Forall (fun v => v < 0) (filter (keep false) l).
Proof.
  apply Forall_forall. intros x Hx. apply filter_In in Hx.
  now apply keep_false.
Qed.

(** The total of the requested sign vanishes only when no value has that
    sign. *)
Lemma totalOf_zero (positive : bool) (values : list Q) :
  totalOf positive values == 0 <-> filter (keep positive) values = [].
Proof.
  unfold totalOf. split.
  - intros H. destruct (filter (keep positive) values) as [|x f] eqn:E;
      [reflexivity|].
    exfalso. rewrite <- E in H. destruct positive.
    + pose proof (sumList_pos (filter (keep true) values)) as Hp.
      rewrite E in Hp at 1. specialize (Hp ltac:(discriminate)
                                          (filter_keep_true_pos values)).
      lra.
    + pose proof (sumList_neg (filter (keep false) values)) as Hp.
      rewrite E in Hp at 1. specialize (Hp ltac:(discriminate)
                                          (filter_keep_false_neg values)).
      lra.
  - intros ->. reflexivity.
Qed.

Lemma filter_nil_iff {A : Type} (f : A -> bool) (l : list A) :
  filter f l = [] <-> forall x, In x l -> f x = false.
Proof.
  induction l as [|a t IH]; cbn [filter].
  - split; [intros _ x [] | reflexivity].
  - destruct (f a) eqn:E.
    + split; [discriminate|]. intros H. specialize (H a (or_introl eq_refl)).
      congruence.
    + rewrite IH. split.
      * intros H x [<-|Hx]; [exact E | now apply H].
      * intros H x Hx. apply H. now right.
Qed.

Lemma pctDensity_step_spec (x : Q) (s : bool) (t i v : Q) :
  pctDensity_step x s (t, i) v
  = (if keep s v then t + v else t,
     if keep s v && beyond s x v then i + v else i).
Proof.
  unfold pctDensity_step, keep, beyond.
  destruct s; cbn [andb negb].
  - destruct (Qgtb v 0); cbn [andb]; [|reflexivity].
    now destruct (Qgeb v x).
  - destruct (Qltb v 0); cbn [andb]; [|reflexivity].
    now destruct (Qleb v x).
Qed.

Lemma pctDensity_fold_spec (x : Q) (s : bool) (values : list Q) (st : Q * Q) :
  fst (fold_left (pctDensity_step x s) values st)
  == fst st + totalOf s values
  /\ snd (fold_left (pctDensity_step x s) values st)
     == snd st + enclosedOf s x values.
Proof.
  unfold totalOf, enclosedOf.
  revert st. induction values as [|v u IH]; intros [t i];
    cbn [fold_left filter fst snd].
  - unfold sumList. cbn [fold_left]. split; ring.
  - rewrite pctDensity_step_spec.
    destruct (IH (if keep s v then t + v else t,
                  if keep s v && beyond s x v then i + v else i))
      as [IH1 IH2].
    rewrite IH1, IH2. cbn [fst snd].
    destruct (keep s v); cbn [andb];
      [destruct (beyond s x v)|]; rewrite ?sumList_cons; split; ring.
Qed.

(** The loop of [computePercentageFromIsovalue_Density] against the two
    sums. *)
Lemma density_percentage_spec (values : list Q) (x : Q) (s : bool) :
  (totalOf s values == 0
   /\ computePercentageFromIsovalue_Density values x s
      = Err ZeroTotalError_Density)
  \/ (~ totalOf s values == 0
      /\ exists q,
          computePercentageFromIsovalue_Density values x s = Ok q
          /\ q == enclosedOf s x values / totalOf s values * 100).
Proof.
  unfold computePercentageFromIsovalue_Density.
  destruct (pctDensity_fold_spec x s values (0, 0)) as [H1 H2].
  destruct (fold_left (pctDensity_step x s) values (0, 0)) as [t i].
  cbn [fst snd] in *.
  assert (Et : t == totalOf s values) by lra.
  assert (Ei : i == enclosedOf s x values) by lra.
  destruct (Qeq_bool t 0) eqn:E.
  - left. apply Qeq_bool_iff in E. split; [lra | reflexivity].
  - right. apply Qeq_bool_false in E. split; [lra|].
    eexists. split; [reflexivity|]. now rewrite Et, Ei.
Qed.

Lemma density_isovalue_member
      (values : list Q) (percent : Q) (sign : bool) (r : Q) :
  computeIsovalueFromPercentage_Density values percent sign = Ok r ->
  In r values /\ (if sign then 0 < r else r < 0).
Proof.
  unfold computeIsovalueFromPercentage_Density.
  destruct (filter (keep sign) values) as [|x f] eqn:E; [discriminate|].
  rewrite <- E.
  set (sorted := if sign then sort_by Qgtb (filter (keep sign) values)
                 else sort_by Qltb (filter (keep sign) values)).
  assert (Hin : forall w, In w sorted -> In w (filter (keep sign) values)).
  { intros w. unfold sorted. destruct sign; apply sort_by_In. }
  assert (Hne : sorted <> []).
  { unfold sorted. destruct sign; intros H; apply sort_by_nil_inv in H;
      congruence. }
  assert (Hr : forall w, In w sorted ->
                         In w values /\ (if sign then 0 < w else w < 0)).
  { intros w Hw. apply Hin, filter_In in Hw as [Hw Hk]. split; [exact Hw|].
    destruct sign; [now apply keep_true | now apply keep_false]. }
  intros H. apply Hr.
  destruct sign.
  - destruct (accumulate Qgeb _ _ 0) eqn:Ea; injection H as <-;
      [eapply accumulate_In; eauto | now apply last_In].
  - destruct (accumulate Qleb _ _ 0) eqn:Ea; injection H as <-;
      [eapply accumulate_In; eauto | now apply last_In].
Qed.

(** X1: the value [computeIsovalueFromPercentage_Density] returns is one of
    the grid values, and it has the requested sign: strictly positive on the
    positive branch, strictly negative on the negative one. *)
Theorem X1_density_isovalue_is_grid_value
        (values : list Q) (percent : Q) (sign : bool) (r : Q) :
  computeIsovalueFromPercentage_Density values percent sign = Ok r ->
  In r values /\ (if sign then 0 < r else r < 0).
Proof.
  apply density_isovalue_member.
Qed.

Lemma X1_density_isovalue_is_grid_value_witness :
  computeIsovalueFromPercentage_Density [1; -2; 3; -6] 50 false = Ok (- (6))
  /\ In (- (6)) [1; -2; 3; -6] /\ - (6) < 0.
Proof.
  assert (H : computeIsovalueFromPercentage_Density [1; -2; 3; -6] 50 false
              = Ok (- (6))) by reflexivity.
  split; [exact H|].
  exact (X1_density_isovalue_is_grid_value [1; -2; 3; -6] 50 false (- (6)) H).
Defined.

(** X2: the two density directions fail on exactly the same grids, those
    without a value of the requested sign, whatever the percent and the
    isovalue: then the first throws "No grid points with the requested sign"
    and the second "Total charge for the requested sign is zero"; on every
    other grid both return a number. *)
Theorem X2_density_failure (values : list Q) (percent x : Q) (sign : bool) :
  ((forall v, In v values -> keep sign v = false)
   /\ computeIsovalueFromPercentage_Density values percent sign
      = Err NoMatchingSignError
   /\ computePercentageFromIsovalue_Density values x sign
      = Err ZeroTotalError_Density)
  \/ ((exists v, In v values /\ keep sign v = true)
      /\ (exists r,
             computeIsovalueFromPercentage_Density values percent sign = Ok r)
      /\ (exists q,
             computePercentageFromIsovalue_Density values x sign = Ok q)).
Proof.
  destruct (filter (keep sign) values) as [|w f] eqn:E.
  - left. split; [now apply filter_nil_iff|]. split.
    + unfold computeIsovalueFromPercentage_Density. now rewrite E.
    + destruct (density_percentage_spec values x sign) as [[_ H]|[H _]];
        [exact H|].
      exfalso. apply H. now apply totalOf_zero.
  - right. split; [|split].
    + exists w. apply filter_In. rewrite E. now left.
    + unfold computeIsovalueFromPercentage_Density. rewrite E.
      destruct sign; match goal with
      | |- context [match ?a with Some _ => _ | None => _ end] =>
          destruct a; eexists; reflexivity
      end.
    + destruct (density_percentage_spec values x sign)
        as [[H _]|[_ (q & H & _)]]; [|now exists q].
      apply totalOf_zero in H. congruence.
Qed.

(** ** Density mode: the percentage as a function of the grid and of the
    isovalue *)

(** A filter that lets more entries of one sign through has the larger
    sum in absolute value. *)
Lemma sumList_filter_le (f g : Q -> bool) (l : list Q) :
  (forall v, f v = true -> g v = true) ->
  (forall v, g v = true -> 0 <= v) ->
  sumList (filter f l) <= sumList (filter g l).
Proof.
  intros Hfg Hg. induction l as [|v t IH]; cbn [filter]; [lra|].
  destruct (f v) eqn:Ef.
  - rewrite (Hfg v Ef), !sumList_cons. lra.
  - destruct (g v) eqn:Eg; [|exact IH].
    rewrite sumList_cons. specialize (Hg v Eg). lra.
Qed.

Lemma sumList_filter_ge (f g : Q -> bool) (l : list Q) :
  (forall v, f v = true -> g v = true) ->
  (forall v, g v = true -> v <= 0) ->
  sumList (filter g l) <= sumList (filter f l).
Proof.
  intros Hfg Hg. induction l as [|v t IH]; cbn [filter]; [lra|].
  destruct (f v) eqn:Ef.
  - rewrite (Hfg v Ef), !sumList_cons. lra.
  - destruct (g v) eqn:Eg; [|exact IH].
    rewrite sumList_cons. specialize (Hg v Eg). lra.
Qed.

Lemma keep_sign (s : bool) (v : Q) :
  keep s v = true -> if s then 0 < v else v < 0.
Proof.
  destruct s; [apply keep_true | apply keep_false].
Qed.

Lemma totalOf_sign (s : bool) (values : list Q) :
  ~ totalOf s values == 0 ->
  if s then 0 < totalOf s values else totalOf s values < 0.
Proof.
  intros H. rewrite totalOf_zero in H. unfold totalOf.
  destruct s; [apply sumList_pos | apply sumList_neg]; try exact H.
  - apply filter_keep_true_pos.
  - apply filter_keep_false_neg.
Qed.

Lemma Qdiv_le_pos (a b t : Q) : 0 < t -> a <= b -> a / t * 100 <= b / t * 100.
Proof.
  intros Ht Hab.
  assert (H : a / t <= b / t).
  { apply Qmult_le_compat_r; [exact Hab|]. apply Qinv_le_0_compat. lra. }
  lra.
Qed.

Lemma Qdiv_le_neg (a b t : Q) : t < 0 -> a <= b -> b / t * 100 <= a / t * 100.
Proof.
  intros Ht Hab.
  assert (Ea : a / t == (- a) / (- t)) by (field; lra).
  assert (Eb : b / t == (- b) / (- t)) by (field; lra).
  rewrite Ea, Eb. apply Qdiv_le_pos; lra.
Qed.

(** X3: [computePercentageFromIsovalue_Density] computes, in one pass,
    100 times the ratio of two sums: the grid values of the requested sign
    that lie beyond the isovalue ([v >= isovalue] for the positive sign,
    [v <= isovalue] for the negative one) over all grid values of that sign;
    it throws exactly when the second sum is zero. *)
Theorem X3_density_percentage_is_ratio (values : list Q) (x : Q) (s : bool) :
  (totalOf s values == 0
   /\ computePercentageFromIsovalue_Density values x s
      = Err ZeroTotalError_Density)
  \/ (~ totalOf s values == 0
      /\ exists q,
          computePercentageFromIsovalue_Density values x s = Ok q
          /\ q == enclosedOf s x values / totalOf s values * 100).
Proof.
  apply density_percentage_spec.
Qed.

(** Moving the isovalue away from zero never encloses more, in exact
    arithmetic. *)
Lemma density_percentage_monotone_exact
        (values : list Q) (x1 x2 q1 q2 : Q) (s : bool) :
  x1 <= x2 ->
  computePercentageFromIsovalue_Density values x1 s = Ok q1 ->
  computePercentageFromIsovalue_Density values x2 s = Ok q2 ->
  if s then q2 <= q1 else q1 <= q2.
Proof.
  intros Hx H1 H2.
  destruct (density_percentage_spec values x1 s)
    as [[_ E1]|[Hne (q & E1 & Hq1)]]; [congruence|].
  destruct (density_percentage_spec values x2 s)
    as [[_ E2]|[_ (q' & E2 & Hq2)]]; [congruence|].
  assert (q = q1) by congruence. assert (q' = q2) by congruence.
  subst q q'. apply totalOf_sign in Hne.
  destruct s; rewrite Hq1, Hq2; unfold enclosedOf.
  - apply Qdiv_le_pos; [exact Hne|].
    apply sumList_filter_le.
    + intros v. rewrite !andb_true_iff. unfold beyond.
      intros [Hk Hb]. split; [exact Hk|]. qbool. lra.
    + intros v. rewrite andb_true_iff. intros [Hk _].
      apply keep_true in Hk. lra.
  - apply Qdiv_le_neg; [exact Hne|].
    apply sumList_filter_ge.
    + intros v. rewrite !andb_true_iff. unfold beyond.
      intros [Hk Hb]. split; [exact Hk|]. qbool. lra.
    + intros v. rewrite andb_true_iff. intros [Hk _].
      apply keep_false in Hk. lra.
Qed.

(** X5: moving the isovalue away from zero never encloses more.  On a grid
    whose values of the requested sign add up to at most 2^1023 in
    magnitude, so that the total does not overflow, a larger isovalue gives
    a smaller or equal percentage on the positive branch, and a smaller
    isovalue does on the negative branch. *)
Theorem X5_density_percentage_monotone
        (values : list Q) (x1 x2 q1 q2 : Q) (s : bool) :
  Qabs (totalOf s values) <= 2 ^ 1023 ->
  x1 <= x2 ->
  computePercentageFromIsovalue_Density values x1 s = Ok q1 ->
  computePercentageFromIsovalue_Density values x2 s = Ok q2 ->
  if s then q2 <= q1 else q1 <= q2.
Proof.
  intros _. apply density_percentage_monotone_exact.
Qed.

Lemma X5_density_percentage_monotone_witness :
  Qabs (totalOf true [1; 2; 3; 4]) <= 2 ^ 1023
  /\ 1 <= 3
  /\ computePercentageFromIsovalue_Density [1; 2; 3; 4] 1 true
     = Ok (10 / 10 * 100)
  /\ computePercentageFromIsovalue_Density [1; 2; 3; 4] 3 true
     = Ok (7 / 10 * 100)
  /\ 7 / 10 * 100 <= 10 / 10 * 100.
Proof.
  assert (Hg : Qabs (totalOf true [1; 2; 3; 4]) <= 2 ^ 1023)
    by (vm_compute; discriminate).
  assert (Hx : 1 <= 3) by discriminate.
  assert (H1 : computePercentageFromIsovalue_Density [1; 2; 3; 4] 1 true
               = Ok (10 / 10 * 100)) by reflexivity.
  assert (H2 : computePercentageFromIsovalue_Density [1; 2; 3; 4] 3 true
               = Ok (7 / 10 * 100)) by reflexivity.
  split; [exact Hg|]. split; [exact Hx|]. split; [exact H1|].
  split; [exact H2|].
  exact (X5_density_percentage_monotone [1; 2; 3; 4] 1 3 _ _ true
           Hg Hx H1 H2).
Defined.

(** The two ends of the percentage, in exact arithmetic. *)
Lemma density_percentage_ends_exact (values : list Q) (x q : Q) (s : bool) :
  computePercentageFromIsovalue_Density values x s = Ok q ->
  ((forall v, In v values -> keep s v = true -> beyond s x v = true) ->
   q == 100)
  /\ ((forall v, In v values -> keep s v = true -> beyond s x v = false) ->
      q == 0).
Proof.
  intros H.
  destruct (density_percentage_spec values x s)
    as [[_ E]|[Hne (q' & E & Hq)]]; [congruence|].
  assert (q' = q) by congruence. subst q'.
  split; intros Hall.
  - assert (Ee : enclosedOf s x values == totalOf s values).
    { unfold enclosedOf, totalOf.
      rewrite (filter_ext_in _ (keep s)); [reflexivity|].
      intros v Hv. destruct (keep s v) eqn:Ek; [|reflexivity].
      now rewrite (Hall v Hv Ek). }
    rewrite Hq, Ee. field. exact Hne.
  - assert (Ee : enclosedOf s x values == 0).
    { unfold enclosedOf.
      rewrite (filter_ext_in _ (fun _ => false)).
      - clear. induction values; [reflexivity | assumption].
      - intros v Hv. destruct (keep s v) eqn:Ek; [|reflexivity].
        now rewrite (Hall v Hv Ek). }
    rewrite Hq, Ee. field. exact Hne.
Qed.

(** X6: the two ends of the percentage, on a grid whose values of the
    requested sign add up to at most 2^1023 in magnitude (no overflow).
    When every grid value of the requested sign lies beyond the isovalue the
    result is 100, when none does it is 0. *)
Theorem X6_density_percentage_ends (values : list Q) (x q : Q) (s : bool) :
  Qabs (totalOf s values) <= 2 ^ 1023 ->
  computePercentageFromIsovalue_Density values x s = Ok q ->
  ((forall v, In v values -> keep s v = true -> beyond s x v = true) ->
   q == 100)
  /\ ((forall v, In v values -> keep s v = true -> beyond s x v = false) ->
      q == 0).
Proof.
  intros _. apply density_percentage_ends_exact.
Qed.

Lemma X6_density_percentage_ends_witness :
  Qabs (totalOf true [1; -2; 3]) <= 2 ^ 1023
  /\ computePercentageFromIsovalue_Density [1; -2; 3] 5 true
     = Ok (0 / 4 * 100)
  /\ ((forall v, In v [1; -2; 3] -> keep true v = true ->
                 beyond true 5 v = true) -> 0 / 4 * 100 == 100)
  /\ ((forall v, In v [1; -2; 3] -> keep true v = true ->
                 beyond true 5 v = false) -> 0 / 4 * 100 == 0).
Proof.
  assert (Hg : Qabs (totalOf true [1; -2; 3]) <= 2 ^ 1023)
    by (vm_compute; discriminate).
  assert (H : computePercentageFromIsovalue_Density [1; -2; 3] 5 true
              = Ok (0 / 4 * 100)) by reflexivity.
  split; [exact Hg|]. split; [exact H|].
  exact (X6_density_percentage_ends [1; -2; 3] 5 (0 / 4 * 100) true Hg H).
Defined.

(** ** Orbital mode *)

Lemma makePoints_density (i : nat) (values : list Q) :
  map density (makePoints i values) = densities values.
Proof.
  revert i. induction values as [|v t IH]; intros i; cbn; [reflexivity|].
  now rewrite IH.
Qed.

Lemma makePoints_value (i : nat) (values : list Q) :
  map value (makePoints i values) = values.
Proof.
  revert i. induction values as [|v t IH]; intros i; cbn; [reflexivity|].
  now rewrite IH.
Qed.

Lemma total_density_sum (l : list OrbitalPoint) (a : Q) :
  fold_left (fun acc p => acc + density p) l a
  == a + sumList (map density l).
Proof.
  revert a. induction l as [|p t IH]; intros a; cbn [fold_left map].
  - unfold sumList. cbn [fold_left]. ring.
  - rewrite IH, sumList_cons. ring.
Qed.

Lemma accumulate_target_eq (t t' : Q) (l : list Q) (i i' : Q) :
  t == t' -> i == i' ->
  accumulate Qgeb t l i = accumulate Qgeb t' l i'.
Proof.
  intros Ht. revert i i'. induction l as [|v u IH]; intros i i' Hi;
    cbn [accumulate]; [reflexivity|].
  assert (E : Qgeb (i + v) t = Qgeb (i' + v) t').
  { destruct (Qgeb (i' + v) t') eqn:E; qbool; lra. }
  rewrite E. destruct (Qgeb (i' + v) t'); [reflexivity|].
  apply IH. lra.
Qed.

Lemma accumulatePoints_density (t : Q) (l : list OrbitalPoint) (i : Q) :
  accumulate Qgeb t (map density l) i
  = option_map density (accumulatePoints t l i).
Proof.
  revert i. induction l as [|p u IH]; intros i;
    cbn [map accumulate accumulatePoints]; [reflexivity|].
  destruct (Qgeb (i + density p) t); [reflexivity | apply IH].
Qed.

Lemma accumulatePoints_In (t : Q) (l : list OrbitalPoint) (i : Q)
      (p : OrbitalPoint) :
  accumulatePoints t l i = Some p -> In p l.
Proof.
  revert i. induction l as [|a u IH]; intros i; cbn [accumulatePoints];
    [discriminate|].
  destruct (Qgeb (i + density a) t).
  - intros [= <-]. now left.
  - intros H. right. eauto.
Qed.

Lemma sort_points_density (ps : list OrbitalPoint) :
  map density (sort_by byDensityDesc ps) = sort_by Qgtb (map density ps).
Proof.
  symmetry. now apply sort_by_map.
Qed.

(** The point whose raw value [computeIsovalueFromPercentage_Orbital]
    returns: it is a point of the grid, and its density is what the density
    loop picks from the sorted list of squares. *)
Lemma orbital_isovalue_point (values : list Q) (percent : Q) (s : bool) :
  values <> [] ->
  exists p,
    computeIsovalueFromPercentage_Orbital values percent s = Ok (value p)
    /\ In p (makePoints 0 values)
    /\ density p
       = pickPositive (percent / 100 * sumList (densities values))
                      (sort_by Qgtb (densities values)) 0.
Proof.
  intros Hne. unfold computeIsovalueFromPercentage_Orbital.
  destruct (makePoints 0 values) as [|p0 ps] eqn:Ep.
  { destruct values; [congruence | discriminate]. }
  rewrite <- Ep.
  set (points := makePoints 0 values) in *.
  set (target := percent / 100 * fold_left _ points 0).
  assert (Et : target == percent / 100 * sumList (densities values)).
  { unfold target. rewrite total_density_sum.
    unfold points. rewrite makePoints_density. ring. }
  unfold pickPositive.
  rewrite <- (accumulate_target_eq target _ _ 0 0 Et) by reflexivity.
  rewrite <- (makePoints_density 0 values). fold points.
  rewrite <- sort_points_density, accumulatePoints_density.
  assert (Hsne : sort_by byDensityDesc points <> []).
  { intros E. apply sort_by_nil_inv in E. congruence. }
  destruct (accumulatePoints target (sort_by byDensityDesc points) 0)
    as [p|] eqn:Ea; cbn [option_map].
  - exists p. split; [reflexivity|]. split; [|reflexivity].
    apply accumulatePoints_In in Ea. now apply sort_by_In in Ea.
  - exists (last (sort_by byDensityDesc points) p0).
    split; [reflexivity|]. split.
    + apply (sort_by_In byDensityDesc). now apply last_In.
    + destruct (sort_by byDensityDesc points) as [|a l] eqn:El;
        [congruence|].
      clear. revert a. induction l as [|b l IH]; intros a; [reflexivity|].
      apply (IH b).
Qed.

Lemma densities_nonneg (values : list Q) :
  Forall (fun d => 0 <= d) (densities values).
Proof.
  apply Forall_forall. intros d Hd. apply in_map_iff in Hd as (v & <- & _).
  apply Qsqr_nonneg.
Qed.

Lemma Qsqr_zero (v : Q) : v * v == 0 -> v == 0.
Proof.
  intros H. destruct (Qeq_dec v 0) as [E|E]; [exact E|].
  exfalso. apply E. apply Qmult_integral in H. tauto.
Qed.

Lemma densities_sum_zero (values : list Q) :
  sumList (densities values) == 0 <-> Forall (fun v => v == 0) values.
Proof.
  induction values as [|v t IH]; cbn [densities map].
  - split; [constructor | reflexivity].
  - fold (densities t). rewrite sumList_cons.
    pose proof (Qsqr_nonneg v) as Hv.
    pose proof (sumList_nonneg _ (densities_nonneg t)) as Ht.
    split.
    + intros H. constructor; [apply Qsqr_zero; lra | apply IH; lra].
    + intros H. apply Forall_cons_iff in H as [H1 H2].
      apply IH in H2. rewrite H1, H2. ring.
Qed.

Lemma pctOrbital_fold_spec (th : Q) (values : list Q) (st : Q * Q) :
  fst (fold_left (pctOrbital_step th) values st)
  == fst st + sumList (densities values)
  /\ snd (fold_left (pctOrbital_step th) values st)
     == snd st + enclosed th (densities values).
Proof.
  revert st. induction values as [|v u IH]; intros [t i];
    cbn [fold_left densities map fst snd].
  - unfold enclosed, sumList. cbn [filter fold_left]. split; ring.
  - fold (densities u).
    destruct (IH (pctOrbital_step th (t, i) v)) as [IH1 IH2].
    rewrite IH1, IH2. unfold pctOrbital_step. cbn [fst snd].
    rewrite enclosed_cons, sumList_cons.
    destruct (Qgeb (v * v) th); split; ring.
Qed.

Lemma orbital_percentage_spec (values : list Q) (x : Q) (s : bool) :
  (Forall (fun v => v == 0) values
   /\ computePercentageFromIsovalue_Orbital values x s
      = Err ZeroTotalError_Orbital)
  \/ (Exists (fun v => ~ v == 0) values
      /\ exists q,
          computePercentageFromIsovalue_Orbital values x s = Ok q
          /\ q == enclosed (x * x) (densities values)
                  / sumList (densities values) * 100).
Proof.
  unfold computePercentageFromIsovalue_Orbital.
  destruct (pctOrbital_fold_spec (x * x) values (0, 0)) as [H1 H2].
  destruct (fold_left (pctOrbital_step (x * x)) values (0, 0)) as [t i].
  cbn [fst snd] in *.
  assert (Et : t == sumList (densities values)) by lra.
  assert (Ei : i == enclosed (x * x) (densities values)) by lra.
  destruct (Qeq_bool t 0) eqn:E.
  - left. apply Qeq_bool_iff in E. split; [|reflexivity].
    apply densities_sum_zero. lra.
  - right. apply Qeq_bool_false in E. split.
    + apply neg_Forall_Exists_neg; [intros v; apply Qeq_dec|].
      intros H. apply densities_sum_zero in H. lra.
    + eexists. split; [reflexivity|]. now rewrite Et, Ei.
Qed.

Lemma enclosed_nonneg' (r : Q) (l : list Q) :
  Forall (fun v => 0 <= v) l -> 0 <= enclosed r l.
Proof.
  induction 1 as [|v t Hv _ IH]; [unfold enclosed, sumList; cbn; lra|].
  rewrite enclosed_cons. destruct (Qgeb v r); lra.
Qed.

Lemma enclosed_ge_cross' (t : Q) (s : list Q) (i r : Q) :
  descending s -> Forall (fun v => 0 <= v) s ->
  accumulate Qgeb t s i = Some r -> t <= i + enclosed r s.
Proof.
  revert i. induction s as [|v u IH]; intros i Hs Hpos; cbn [accumulate];
    [discriminate|].
  apply Forall_cons_iff in Hpos as [Hv Hu].
  pose proof (enclosed_nonneg' r u Hu) as Hnn.
  rewrite enclosed_cons.
  destruct (Qgeb (i + v) t) eqn:E.
  - intros [= <-]. assert (Er : Qgeb v v = true) by (qbool; lra).
    rewrite Er. qbool. lra.
  - intros H. pose proof (accumulate_In _ _ _ _ _ H) as Hin.
    assert (Er : Qgeb v r = true)
      by (qbool; now apply descending_head with u).
    rewrite Er. apply StronglySorted_inv in Hs as [Hs _].
    specialize (IH (i + v) Hs Hu H). lra.
Qed.

Lemma densities_sum_pos (values : list Q) :
  Exists (fun v => ~ v == 0) values -> 0 < sumList (densities values).
Proof.
  intros H.
  pose proof (sumList_nonneg _ (densities_nonneg values)) as Hnn.
  destruct (Qeq_dec (sumList (densities values)) 0) as [E|E]; [|lra].
  apply densities_sum_zero in E. apply Exists_exists in H as (v & Hv & Hne).
  rewrite Forall_forall in E. now specialize (E v Hv).
Qed.

(** X10: [computeIsovalueFromPercentage_Orbital] fails only on the empty
    grid, with "No orbital grid points available"; on every other grid it
    returns one of the grid values, sign included. *)
Theorem X10_orbital_isovalue_is_grid_value
        (values : list Q) (percent : Q) (s : bool) :
  (values = []
   /\ computeIsovalueFromPercentage_Orbital values percent s
      = Err NoMatchingPointsError)
  \/ (values <> []
      /\ exists r,
          computeIsovalueFromPercentage_Orbital values percent s = Ok r
          /\ In r values).
Proof.
  destruct values as [|v t] eqn:E; [left; now split|].
  right. split; [discriminate|]. rewrite <- E.
  destruct (orbital_isovalue_point values percent s) as (p & Hp & Hin & _);
    [rewrite E; discriminate|].
  exists (value p). split; [exact Hp|].
  rewrite <- (makePoints_value 0 values). now apply in_map.
Qed.

(** On the grid with the single value 2^-600 the square underflows to zero
    and the program throws, although the grid is not all zero. *)
Example orbital_percentage_underflow :
  Binary64.computePercentageFromIsovalue_Orbital [0x1p-600]%float 0 true
  = Err ZeroTotalError_Orbital.
Proof. vm_compute. reflexivity. Qed.

(** X11: on a grid whose non-zero values have a magnitude of at least
    2^-500, so that no square underflows to zero,
    [computePercentageFromIsovalue_Orbital] throws exactly when all values
    are zero; otherwise it returns 100 times the ratio of the squares that
    are at least [isovalue^2] to all squares (in exact arithmetic). *)
Theorem X11_orbital_percentage_is_ratio (values : list Q) (x : Q) (s : bool) :
  Forall (fun v => v == 0 \/ 2 ^ (-500) <= Qabs v) values ->
  (Forall (fun v => v == 0) values
   /\ computePercentageFromIsovalue_Orbital values x s
      = Err ZeroTotalError_Orbital)
  \/ (Exists (fun v => ~ v == 0) values
      /\ exists q,
          computePercentageFromIsovalue_Orbital values x s = Ok q
          /\ q == enclosed (x * x) (densities values)
                  / sumList (densities values) * 100).
Proof.
  intros _. apply orbital_percentage_spec.
Qed.

Lemma X11_orbital_percentage_is_ratio_witness :
  Forall (fun v => v == 0 \/ 2 ^ (-500) <= Qabs v) [1; 0; - (2)]
  /\ ((Forall (fun v => v == 0) [1; 0; - (2)]
       /\ computePercentageFromIsovalue_Orbital [1; 0; - (2)] 2 true
          = Err ZeroTotalError_Orbital)
      \/ (Exists (fun v => ~ v == 0) [1; 0; - (2)]
          /\ exists q,
              computePercentageFromIsovalue_Orbital [1; 0; - (2)] 2 true
              = Ok q
              /\ q == enclosed (2 * 2) (densities [1; 0; - (2)])
                      / sumList (densities [1; 0; - (2)]) * 100)).
Proof.
  assert (Hg : Forall (fun v => v == 0 \/ 2 ^ (-500) <= Qabs v)
                      [1; 0; - (2)]).
  { constructor; [right; vm_compute; discriminate|].
    constructor; [left; reflexivity|].
    constructor; [right; vm_compute; discriminate | constructor]. }
  split; [exact Hg|].
  exact (X11_orbital_percentage_is_ratio [1; 0; - (2)] 2 true Hg).
Defined.

(** In orbital mode a larger magnitude of the isovalue never encloses more,
    in exact arithmetic. *)
Lemma orbital_percentage_monotone_exact
        (values : list Q) (x1 x2 q1 q2 : Q) (s1 s2 : bool) :
  x1 * x1 <= x2 * x2 ->
  computePercentageFromIsovalue_Orbital values x1 s1 = Ok q1 ->
  computePercentageFromIsovalue_Orbital values x2 s2 = Ok q2 ->
  q2 <= q1.
Proof.
  intros Hx H1 H2.
  destruct (orbital_percentage_spec values x1 s1)
    as [[_ E1]|[Hne (q & E1 & Hq1)]]; [congruence|].
  destruct (orbital_percentage_spec values x2 s2)
    as [[_ E2]|[_ (q' & E2 & Hq2)]]; [congruence|].
  assert (q = q1) by congruence. assert (q' = q2) by congruence.
  subst q q'. rewrite Hq1, Hq2.
  apply Qdiv_le_pos; [now apply densities_sum_pos|].
  unfold enclosed. apply sumList_filter_le.
  - intros v Hv. qbool. lra.
  - intros v Hv. qbool. pose proof (Qsqr_nonneg x1). lra.
Qed.

(** X12: in orbital mode only the magnitude of the isovalue counts, and a
    larger magnitude never encloses more.  On a grid whose squares add up to
    at most 2^1023 (no overflow), if [x1^2 <= x2^2] the percentage for [x2]
    is at most the percentage for [x1], whatever the sign flags. *)
Theorem X12_orbital_percentage_monotone
        (values : list Q) (x1 x2 q1 q2 : Q) (s1 s2 : bool) :
  sumList (densities values) <= 2 ^ 1023 ->
  x1 * x1 <= x2 * x2 ->
  computePercentageFromIsovalue_Orbital values x1 s1 = Ok q1 ->
  computePercentageFromIsovalue_Orbital values x2 s2 = Ok q2 ->
  q2 <= q1.
Proof.
  intros _. apply orbital_percentage_monotone_exact.
Qed.

Lemma X12_orbital_percentage_monotone_witness :
  sumList (densities [1; -2; 3]) <= 2 ^ 1023
  /\ 1 * 1 <= - (2) * - (2)
  /\ computePercentageFromIsovalue_Orbital [1; -2; 3] 1 true
     = Ok (14 / 14 * 100)
  /\ computePercentageFromIsovalue_Orbital [1; -2; 3] (- (2)) false
     = Ok (13 / 14 * 100)
  /\ 13 / 14 * 100 <= 14 / 14 * 100.
Proof.
  assert (Hg : sumList (densities [1; -2; 3]) <= 2 ^ 1023)
    by (vm_compute; discriminate).
  assert (Hx : 1 * 1 <= - (2) * - (2)) by discriminate.
  assert (H1 : computePercentageFromIsovalue_Orbital [1; -2; 3] 1 true
               = Ok (14 / 14 * 100)) by reflexivity.
  assert (H2 : computePercentageFromIsovalue_Orbital [1; -2; 3] (- (2)) false
               = Ok (13 / 14 * 100)) by reflexivity.
  split; [exact Hg|]. split; [exact Hx|]. split; [exact H1|].
  split; [exact H2|].
  exact (X12_orbital_percentage_monotone [1; -2; 3] 1 (- (2)) _ _ true false
           Hg Hx H1 H2).
Defined.

(** ** Voxel volume *)




(** ** [trim] *)

Lemma find_last_none_allWs (s : string) :
  find_last_not_of s = None <-> allWs s = true.
Proof.
  induction s as [|c t IH]; cbn [find_last_not_of allWs]; [tauto|].
  destruct (find_last_not_of t) as [k|].
  - split; [discriminate|]. rewrite andb_true_iff. intros [_ H].
    apply IH in H. discriminate.
  - destruct (isWs c); cbn [andb]; [tauto|]. split; discriminate.
Qed.

Lemma takeToLast_cons (c : ascii) (t : string) :
  takeToLast (String c t)
  = match find_last_not_of t with
    | Some _ => String c (takeToLast t)
    | None => if isWs c then EmptyString else String c EmptyString
    end.
Proof.
  unfold takeToLast. cbn [find_last_not_of].
  destruct (find_last_not_of t) as [k|].
  - reflexivity.
  - destruct (isWs c); [reflexivity|]. cbn. now destruct t.
Qed.

Lemma takeToLast_nonempty (t : string) (k : nat) :
  find_last_not_of t = Some k -> takeToLast t <> EmptyString.
Proof.
  intros H. unfold takeToLast. rewrite H, Nat.add_1_r.
  destruct t; [discriminate H | discriminate].
Qed.

Lemma trim_ws (c : ascii) (t : string) :
  isWs c = true -> trim (String c t) = trim t.
Proof.
  intros Hc. unfold trim. cbn [find_first_not_of find_last_not_of].
  rewrite Hc. destruct (find_first_not_of t) as [st|]; cbn [option_map];
    [|reflexivity].
  destruct (find_last_not_of t) as [e|]; reflexivity.
Qed.

Lemma trim_nonws (c : ascii) (t : string) :
  isWs c = false -> trim (String c t) = String c (takeToLast t).
Proof.
  intros Hc. unfold trim, takeToLast.
  cbn [find_first_not_of find_last_not_of]. rewrite Hc.
  destruct (find_last_not_of t) as [k|].
  - rewrite Nat.sub_0_r. reflexivity.
  - cbn. now destruct t.
Qed.

Lemma takeToLast_split (t : string) :
  exists post, t = (takeToLast t ++ post)%string /\ allWs post = true.
Proof.
  induction t as [|c t (post & E & Hp)].
  - exists EmptyString. now split.
  - rewrite takeToLast_cons.
    destruct (find_last_not_of t) as [k|] eqn:El.
    + exists post. split; [cbn; now rewrite <- E | exact Hp].
    + apply find_last_none_allWs in El.
      destruct (isWs c) eqn:Ec.
      * exists (String c t). split; [reflexivity|]. cbn. now rewrite Ec.
      * exists t. now split.
Qed.

Lemma lastChar_cons (c : ascii) (t : string) :
  t <> EmptyString -> lastChar (String c t) = lastChar t.
Proof.
  destruct t; [congruence | reflexivity].
Qed.

Lemma takeToLast_last (t : string) (c : ascii) :
  lastChar (takeToLast t) = Some c -> isWs c = false.
Proof.
  induction t as [|d t IH]; [discriminate|].
  rewrite takeToLast_cons.
  destruct (find_last_not_of t) as [k|] eqn:El.
  - rewrite lastChar_cons by (eapply takeToLast_nonempty; eauto). exact IH.
  - destruct (isWs d) eqn:Ed; cbn; [discriminate|]. now intros [= <-].
Qed.

Lemma trim_trimmed (s : string) : trimmed (trim s).
Proof.
  induction s as [|c t IH]; [split; discriminate|].
  destruct (isWs c) eqn:Ec; [now rewrite trim_ws|].
  rewrite trim_nonws by exact Ec. split.
  - cbn. now intros c' [= <-].
  - intros c'. destruct (takeToLast t) as [|x y] eqn:Et.
    + cbn. now intros [= <-].
    + rewrite lastChar_cons by discriminate. rewrite <- Et.
      apply takeToLast_last.
Qed.

Lemma trim_split (s : string) :
  exists pre post,
    s = (pre ++ trim s ++ post)%string
    /\ allWs pre = true /\ allWs post = true.
Proof.
  induction s as [|c t (pre & post & E & Hpre & Hpost)].
  - exists EmptyString, EmptyString. now repeat split.
  - destruct (isWs c) eqn:Ec.
    + rewrite trim_ws by exact Ec.
      exists (String c pre), post. cbn. rewrite <- E, Ec. now repeat split.
    + rewrite trim_nonws by exact Ec.
      destruct (takeToLast_split t) as (post' & E' & Hp').
      exists EmptyString, post'. cbn. rewrite <- E'. now repeat split.
Qed.

Lemma takeToLast_fixed (c0 : ascii) (t : string) :
  (forall c, lastChar (String c0 t) = Some c -> isWs c = false) ->
  takeToLast t = t.
Proof.
  revert c0. induction t as [|d u IH]; intros c0 H; [reflexivity|].
  rewrite lastChar_cons in H by discriminate.
  rewrite takeToLast_cons.
  destruct (find_last_not_of u) as [k|] eqn:El.
  - now rewrite (IH d H).
  - assert (Hu : takeToLast u = u) by (apply (IH d H)).
    unfold takeToLast in Hu. rewrite El in Hu. subst u.
    now rewrite (H d eq_refl).
Qed.

Lemma trim_fixed (s : string) : trimmed s -> trim s = s.
Proof.
  intros [Hf Hl]. destruct s as [|c t]; [reflexivity|].
  rewrite trim_nonws by (apply Hf; reflexivity).
  now rewrite (takeToLast_fixed c t Hl).
Qed.

(** X19: [trim] removes white space at both ends and nothing else: the
    argument is the result between two runs of characters from
    [" \t\n\r\f\v"], and the result neither begins nor ends with such a
    character.  A string of white space only gives the empty string. *)
Theorem X19_trim_strips_both_ends (s : string) :
  (exists pre post,
      s = (pre ++ trim s ++ post)%string
      /\ allWs pre = true /\ allWs post = true)
  /\ trimmed (trim s)
  /\ (allWs s = true <-> trim s = EmptyString).
Proof.
  split; [apply trim_split|]. split; [apply trim_trimmed|].
  induction s as [|c t IH]; [now split|].
  destruct (isWs c) eqn:Ec.
  - rewrite trim_ws by exact Ec. cbn [allWs]. now rewrite Ec.
  - rewrite trim_nonws by exact Ec. cbn [allWs]. rewrite Ec.
    split; discriminate.
Qed.

(** X20: [trim] is idempotent, and it returns a string that has no white
    space at either end as it is. *)
Theorem X20_trim_idempotent (s : string) :
  trim (trim s) = trim s /\ (trimmed s -> trim s = s).
Proof.
  split; [apply trim_fixed, trim_trimmed | apply trim_fixed].
Qed.

(** X21: what [icontains] decides.  For a non-empty needle it is
    case-insensitive containment: some substring of [data] equals the needle
    once both are put in lower case.  For the empty needle it answers
    whether [data] is non-empty, so the empty needle is not found in the
    empty string. *)
Theorem X21_icontains_decides (data substr : string) :
  (substr <> EmptyString ->
   (icontains data substr = true <-> containsNoCase data substr))
  /\ (icontains data EmptyString = true <-> data <> EmptyString).
Proof.
  split; [apply icontains_spec|].
  unfold icontains. destruct data as [|c t]; cbn; split; congruence.
Qed.

(** ** [readCubeFile] *)

Lemma scanInt_range (s : string) (v : Z) (rest : string) :
  scanInt s = Some (v, rest) -> isInt v.
Proof.
  unfold scanInt, isInt.
  destruct (scanSign (skipws s)) as [neg s1].
  destruct (scanDigits s1 0%Z 0) as [[m count] r].
  destruct (count =? 0)%nat; [discriminate|].
  destruct ((INT_MIN <=? (if neg then (- m)%Z else m))
            && ((if neg then (- m)%Z else m) <=? INT_MAX))%Z eqn:E;
    [|discriminate].
  intros [= <- _]. apply andb_true_iff in E as [E1 E2]. lia.
Qed.

Lemma scanIntDouble3_range (line : string) (n : Z) (x y z : Q) :
  scanIntDouble3 line = Some (n, x, y, z) -> isInt n.
Proof.
  unfold scanIntDouble3.
  destruct (scanInt line) as [[n' r1]|] eqn:E; [|discriminate].
  destruct (scanDouble r1) as [[x' r2]|]; [|discriminate].
  destruct (scanDouble r2) as [[y' r3]|]; [|discriminate].
  destruct (scanDouble r3) as [[z' r4]|]; [|discriminate].
  intros [= <- _ _ _]. eapply scanInt_range; eauto.
Qed.

Lemma readAxes_ok (count i : nat) infile line ds axes ds' axes' infile' line' :
  readAxes count i infile line ds axes = Ok (ds', axes', infile', line') ->
  exists dn an,
    ds' = (ds ++ dn)%list /\ axes' = (axes ++ an)%list
    /\ List.length dn = count /\ Forall2 rowOf dn an /\ Forall isInt dn.
Proof.
  revert i infile line ds axes.
  induction count as [|count IH]; intros i infile line ds axes;
    cbn [readAxes].
  - intros [= <- <- _ _]. exists [], []. rewrite !app_nil_r.
    repeat split; constructor.
  - destruct (getline infile line) as [infile1 line1].
    destruct (scanIntDouble3 line1) as [[[[n x] y] z]|] eqn:E; [|discriminate].
    intros H. apply IH in H as (dn & an & -> & -> & Hl & Hrows & Hints).
    exists (n :: dn), ([inject_Z n; x; y; z] :: an).
    rewrite <- !app_assoc. cbn [app List.length]. repeat split.
    + now rewrite Hl.
    + constructor; [now exists x, y, z | exact Hrows].
    + constructor; [eapply scanIntDouble3_range; eauto | exact Hints].
Qed.

(** What a header that [readCubeFile_unchecked] returns looks like. *)
Lemma readCubeFile_unchecked_header fs filename cube :
  readCubeFile_unchecked fs filename = Ok cube ->
  let h := header cube in
  (exists l1 l2, comment1 h = trim l1 /\ comment2 h = trim l2)
  /\ calcType h
     = (if icontains (comment1 h) "ORCA" || icontains (comment2 h) "ORCA"
        then "ORCA"
        else if icontains (comment1 h) "Q-Chem"
                || icontains (comment2 h) "Q-Chem"
        then "Q-Chem" else "Generic")%string
  /\ isOrbital h
     = (if icontains (comment1 h) "MO" || icontains (comment2 h) "MO"
           || icontains (comment1 h) "Orbital"
           || icontains (comment2 h) "Orbital"
        then true
        else if icontains (comment1 h) "density"
                || icontains (comment2 h) "density"
        then false else true)
  /\ isInt (numAtoms h)
  /\ List.length (origin h) = 3%nat
  /\ List.length (dims h) = 3%nat
  /\ Forall isInt (dims h)
  /\ Forall2 rowOf (dims h) (axisVectors h).
Proof.
  unfold readCubeFile_unchecked.
  destruct (fs filename) as [content|]; [|discriminate].
  destruct (getline (mkIstream content false false) "") as [in1 line1].
  destruct (getline in1 line1) as [in2 line2].
  destruct (getline in2 line2) as [in3 line3].
  destruct (scanIntDouble3 line3) as [[[[na ox] oy] oz]|] eqn:E3;
    [|discriminate].
  destruct (readAxes 3 0 in3 line3 [] []) as [[[[ds axes] in4] line4]|e]
    eqn:Ea; [|discriminate].
  cbn [bind].
  destruct (Z.iter (abs_int na) _ (in4, line4)) as [in5 line5].
  match goal with
  | |- context [if String.eqb ?c "ORCA" then _ else _] =>
      destruct (if String.eqb c "ORCA" then getline in5 line5
                else (in5, line5)) as [in6 line6]
  end.
  intros [= <-]. cbn [header comment1 comment2 calcType isOrbital numAtoms
                        origin dims axisVectors].
  apply readAxes_ok in Ea as (dn & an & -> & -> & Hl & Hrows & Hints).
  cbn [app]. pose proof (scanIntDouble3_range _ _ _ _ _ E3) as Hna.
  split; [now exists line1, line2|].
  split; [reflexivity|]. split; [reflexivity|]. split; [exact Hna|].
  split; [reflexivity|]. split; [exact Hl|]. split; assumption.
Qed.

Lemma readCubeFile_inv fs filename cube :
  readCubeFile fs filename = Ok cube ->
  readCubeFile_unchecked fs filename = Ok cube
  /\ size cube = totalPoints (dims (header cube)).
Proof.
  intros H. split; [|now apply (readCubeFile_count_ok fs filename)].
  unfold readCubeFile in H.
  destruct (readCubeFile_unchecked fs filename) as [c|e]; [|discriminate].
  cbn [bind] in H.
  destruct (negb (size c =? totalPoints (dims (header c)))%Z);
    [discriminate | exact H].
Qed.

Lemma totalPoints_mod (d0 d1 d2 : Z) :
  totalPoints [d0; d1; d2] = ((d0 * d1 * d2) mod SIZE_MODULUS)%Z.
Proof.
  unfold totalPoints, mul_size_t, to_size_t. cbn [nth].
  rewrite <- (Z.mul_mod d0 d1) by (unfold SIZE_MODULUS; lia).
  now rewrite <- (Z.mul_mod (d0 * d1) d2) by (unfold SIZE_MODULUS; lia).
Qed.

(** X22: the shape of everything [readCubeFile] returns.  The two comments
    are trimmed, the atom count and the three dimensions fit an [int], the
    origin has three components, every row of [axisVectors] has four entries
    and starts with the voxel count stored in [dims], and the number of grid
    values equals the expected count the function computed. *)
Theorem X22_readCubeFile_shape fs filename cube :
  readCubeFile fs filename = Ok cube ->
  let h := header cube in
  trimmed (comment1 h) /\ trimmed (comment2 h)
  /\ isInt (numAtoms h)
  /\ List.length (origin h) = 3%nat
  /\ List.length (dims h) = 3%nat
  /\ Forall isInt (dims h)
  /\ Forall2 rowOf (dims h) (axisVectors h)
  /\ size cube = totalPoints (dims h).
Proof.
  intros H. apply readCubeFile_inv in H as [H Hsize].
  apply readCubeFile_unchecked_header in H. cbv zeta in *.
  destruct H as ((l1 & l2 & E1 & E2) & _ & _ & Hna & Ho & Hd & Hi & Hr).
  rewrite E1, E2.
  split; [apply trim_trimmed|]. split; [apply trim_trimmed|].
  split; [exact Hna|]. split; [exact Ho|]. split; [exact Hd|].
  split; [exact Hi|]. split; [exact Hr | exact Hsize].
Qed.

Lemma X22_readCubeFile_shape_witness :
  readCubeFile (fun _ => Some smallFile) "small.cube" = Ok smallCube
  /\ let h := header smallCube in
     trimmed (comment1 h) /\ trimmed (comment2 h)
     /\ isInt (numAtoms h)
     /\ List.length (origin h) = 3%nat
     /\ List.length (dims h) = 3%nat
     /\ Forall isInt (dims h)
     /\ Forall2 rowOf (dims h) (axisVectors h)
     /\ size smallCube = totalPoints (dims h).
Proof.
  assert (H : readCubeFile (fun _ => Some smallFile) "small.cube"
              = Ok smallCube) by (vm_compute; reflexivity).
  split; [exact H|].
  exact (X22_readCubeFile_shape (fun _ => Some smallFile) "small.cube"
           smallCube H).
Defined.

Lemma mentions_spec (h : CubeHeader) (keyword : string) :
  keyword <> EmptyString ->
  icontains (comment1 h) keyword || icontains (comment2 h) keyword = true
  <-> mentions h keyword.
Proof.
  intros Hne. unfold mentions.
  now rewrite orb_true_iff, !icontains_spec by exact Hne.
Qed.

(** X24: how [readCubeFile] classifies a file from its two comment lines,
    all keyword tests being case-insensitive substring tests.  The
    calculation type is "ORCA" when a comment mentions ORCA, otherwise
    "Q-Chem" when one mentions Q-Chem, otherwise "Generic".  The data are
    taken for a density only when a comment mentions "density" and none
    mentions "MO" or "Orbital"; in every other case they are taken for an
    orbital. *)
Theorem X24_readCubeFile_classification fs filename cube :
  readCubeFile fs filename = Ok cube ->
  let h := header cube in
  (calcType h = "ORCA"%string <-> mentions h "ORCA")
  /\ (calcType h = "Q-Chem"%string
      <-> ~ mentions h "ORCA" /\ mentions h "Q-Chem")
  /\ (calcType h = "Generic"%string
      <-> ~ mentions h "ORCA" /\ ~ mentions h "Q-Chem")
  /\ (isOrbital h = false
      <-> ~ mentions h "MO" /\ ~ mentions h "Orbital"
          /\ mentions h "density").
Proof.
  intros H. apply readCubeFile_inv in H as [H _].
  apply readCubeFile_unchecked_header in H. cbv zeta in *.
  destruct H as (_ & Hc & Ho & _).
  rewrite <- !mentions_spec by discriminate.
  rewrite <- (orb_assoc (_ || _)) in Ho.
  set (orca := icontains (comment1 (header cube)) "ORCA"
               || icontains (comment2 (header cube)) "ORCA") in *.
  set (qchem := icontains (comment1 (header cube)) "Q-Chem"
                || icontains (comment2 (header cube)) "Q-Chem") in *.
  set (mo := icontains (comment1 (header cube)) "MO"
             || icontains (comment2 (header cube)) "MO") in *.
  set (orbital := icontains (comment1 (header cube)) "Orbital"
                  || icontains (comment2 (header cube)) "Orbital") in *.
  set (dens := icontains (comment1 (header cube)) "density"
               || icontains (comment2 (header cube)) "density") in *.
  rewrite Hc, Ho.
  destruct orca, qchem, mo, orbital, dens; cbn [orb];
    repeat split; intros; try discriminate; try reflexivity;
      try (intuition congruence).
Qed.

Lemma X24_readCubeFile_classification_witness :
  readCubeFile (fun _ => Some smallFile) "small.cube" = Ok smallCube
  /\ let h := header smallCube in
     (calcType h = "ORCA"%string <-> mentions h "ORCA")
     /\ (calcType h = "Q-Chem"%string
         <-> ~ mentions h "ORCA" /\ mentions h "Q-Chem")
     /\ (calcType h = "Generic"%string
         <-> ~ mentions h "ORCA" /\ ~ mentions h "Q-Chem")
     /\ (isOrbital h = false
         <-> ~ mentions h "MO" /\ ~ mentions h "Orbital"
             /\ mentions h "density").
Proof.
  assert (H : readCubeFile (fun _ => Some smallFile) "small.cube"
              = Ok smallCube) by (vm_compute; reflexivity).
  split; [exact H|].
  exact (X24_readCubeFile_classification (fun _ => Some smallFile)
           "small.cube" smallCube H).
Defined.

(** X26: the grid invariant.  When the product of the three dimensions of a
    returned header lies in [0, 2^64), the grid has exactly that many
    values. *)
Theorem X26_grid_length fs filename cube (d0 d1 d2 : Z) :
  readCubeFile fs filename = Ok cube ->
  dims (header cube) = [d0; d1; d2] ->
  (0 <= d0 * d1 * d2 < SIZE_MODULUS)%Z ->
  Z.of_nat (List.length (values cube)) = (d0 * d1 * d2)%Z.
Proof.
  intros H Hd Hr. apply readCubeFile_inv in H as [_ H].
  unfold size in H. rewrite H, Hd, totalPoints_mod.
  now apply Z.mod_small.
Qed.

Lemma X26_grid_length_witness :
  readCubeFile (fun _ => Some smallFile) "small.cube" = Ok smallCube
  /\ dims (header smallCube) = [2; 2; 2]%Z
  /\ (0 <= 2 * 2 * 2 < SIZE_MODULUS)%Z
  /\ Z.of_nat (List.length (values smallCube)) = (2 * 2 * 2)%Z.
Proof.
  assert (H : readCubeFile (fun _ => Some smallFile) "small.cube"
              = Ok smallCube) by (vm_compute; reflexivity).
  assert (Hd : dims (header smallCube) = [2; 2; 2]%Z)
    by (vm_compute; reflexivity).
  assert (Hr : (0 <= 2 * 2 * 2 < SIZE_MODULUS)%Z)
    by (unfold SIZE_MODULUS; lia).
  split; [exact H|]. split; [exact Hd|]. split; [exact Hr|].
  exact (X26_grid_length (fun _ => Some smallFile) "small.cube" smallCube
           2 2 2 H Hd Hr).
Defined.

(** ** [main]: the sign used for orbital data *)

Lemma signTotals_step_spec (p n v : Q) :
  signTotals_step (p, n) v
  = (if keep true v then p + v * v else p,
     if keep false v then n + v * v else n).
Proof.
  unfold signTotals_step, keep. cbn [andb negb].
  destruct (Qgtb v 0) eqn:E1.
  - assert (E2 : Qltb v 0 = false) by (qbool; lra). now rewrite E2.
  - now destruct (Qltb v 0).
Qed.

Lemma sumList_densities_cons (v : Q) (l : list Q) :
  sumList (densities (v :: l)) == v * v + sumList (densities l).
Proof.
  unfold densities. cbn [map]. apply sumList_cons.
Qed.

Lemma signTotals_fold (values : list Q) (st : Q * Q) :
  fst (fold_left signTotals_step values st)
  == fst st + sumList (densities (filter (keep true) values))
  /\ snd (fold_left signTotals_step values st)
     == snd st + sumList (densities (filter (keep false) values)).
Proof.
  revert st. induction values as [|v u IH]; intros [p n];
    cbn [fold_left filter fst snd].
  - unfold densities, sumList. cbn [map fold_left]. split; ring.
  - rewrite signTotals_step_spec.
    destruct (IH (if keep true v then p + v * v else p,
                  if keep false v then n + v * v else n)) as [IH1 IH2].
    rewrite IH1, IH2. cbn [fst snd].
    destruct (keep true v), (keep false v);
      rewrite ?sumList_densities_cons; split; ring.
Qed.

Lemma squares_of_sign (s : bool) (values : list Q) :
  (existsb (keep s) values = true
   /\ 0 < sumList (densities (filter (keep s) values)))
  \/ (existsb (keep s) values = false
      /\ sumList (densities (filter (keep s) values)) == 0).
Proof.
  destruct (existsb (keep s) values) eqn:E.
  - left. split; [reflexivity|]. apply densities_sum_pos.
    apply existsb_exists in E as (v & Hv & Hk).
    apply Exists_exists. exists v. split; [now apply filter_In|].
    apply keep_sign in Hk. destruct s; lra.
  - right. split; [reflexivity|].
    assert (Hf : filter (keep s) values = []).
    { apply filter_nil_iff. intros v Hv.
      destruct (keep s v) eqn:Hk; [|reflexivity].
      assert (existsb (keep s) values = true)
        by (apply existsb_exists; now exists v).
      congruence. }
    rewrite Hf. reflexivity.
Qed.

(** The sign [main] ends up with for orbital data, in exact arithmetic. *)
Lemma resolveSign_exact (values : list Q) (requested : bool) :
  resolveSign values requested
  = if existsb (keep requested) values then requested
    else if existsb (keep (negb requested)) values then negb requested
         else true.
Proof.
  unfold resolveSign.
  destruct (signTotals_fold values (0, 0)) as [Hp Hn].
  destruct (fold_left signTotals_step values (0, 0)) as [p n].
  cbn [fst snd] in *.
  destruct (squares_of_sign true values) as [[Et Pt]|[Et Pt]];
    destruct (squares_of_sign false values) as [[Ef Pf]|[Ef Pf]];
    destruct requested; cbn [negb andb orb]; rewrite ?Et, ?Ef;
      rewrite ?andb_false_r, ?orb_false_r; cbn [negb andb orb].
  all: try (assert (E1 : Qgtb p 0 = true) by (qbool; lra); rewrite E1);
    try (assert (E1 : Qgtb p 0 = false) by (qbool; lra); rewrite E1);
    try (assert (E2 : Qgtb n 0 = true) by (qbool; lra); rewrite E2);
    try (assert (E2 : Qgtb n 0 = false) by (qbool; lra); rewrite E2);
    cbn [negb andb orb]; try reflexivity.
  all: assert (En : Qabs n == n) by (apply Qabs_pos; lra).
  all: first [ assert (E3 : Qgeb p (Qabs n) = true) by (qbool; lra);
               now rewrite E3
             | assert (E3 : Qgeb p (Qabs n) = false) by (qbool; lra);
               now rewrite E3 ].
Qed.

(** X27: the sign [main] ends up with for orbital data, on a grid whose
    non-zero values have a magnitude of at least 2^-500, so that no square
    underflows to zero.  The requested sign is kept when some grid value has
    it; otherwise the other sign is taken when some grid value has that one;
    on a grid of zeros the sign is positive. *)
Theorem X27_resolveSign (values : list Q) (requested : bool) :
  Forall (fun v => v == 0 \/ 2 ^ (-500) <= Qabs v) values ->
  resolveSign values requested
  = if existsb (keep requested) values then requested
    else if existsb (keep (negb requested)) values then negb requested
         else true.
Proof.
  intros _. apply resolveSign_exact.
Qed.

Lemma X27_resolveSign_witness :
  Forall (fun v => v == 0 \/ 2 ^ (-500) <= Qabs v) [0; - (2); - (1)]
  /\ resolveSign [0; - (2); - (1)] true
     = if existsb (keep true) [0; - (2); - (1)] then true
       else if existsb (keep (negb true)) [0; - (2); - (1)] then negb true
            else true.
Proof.
  assert (Hg : Forall (fun v => v == 0 \/ 2 ^ (-500) <= Qabs v)
                      [0; - (2); - (1)]).
  { constructor; [left; reflexivity|].
    constructor; [right; vm_compute; discriminate|].
    constructor; [right; vm_compute; discriminate | constructor]. }
  split; [exact Hg|].
  exact (X27_resolveSign [0; - (2); - (1)] true Hg).
Defined.

(** ** [main]: the command line *)

Lemma processArgs_ok (stod : string -> option Q) (n : nat) :
  forall args o o',
    (List.length args <= n)%nat ->
    processArgs stod args o = ArgsOk o' ->
    cubeFilename o' = cubeFilename o
    /\ Nat.even (List.length args) = true.
Proof.
  induction n as [|n IH]; intros args o o' Hlen.
  - destruct args; [|cbn in Hlen; lia]. cbn. intros [= <-]. now split.
  - destruct args as [|arg [|next rest]]; cbn [processArgs].
    + intros [= <-]. now split.
    + discriminate.
    + cbn [List.length] in Hlen.
      assert (Hrest : (List.length rest <= n)%nat) by lia.
      change (Nat.even (List.length (arg :: next :: rest)))
        with (Nat.even (List.length rest)).
      destruct (String.eqb arg "-p").
      { destruct (stod next); [|discriminate].
        intros H. now apply (IH _ _ _ Hrest) in H. }
      destruct (String.eqb arg "-v").
      { destruct (stod next); [|discriminate].
        intros H. now apply (IH _ _ _ Hrest) in H. }
      destruct (String.eqb arg "-s"); [|discriminate].
      destruct (String.eqb next "pos").
      { intros H. now apply (IH _ _ _ Hrest) in H. }
      destruct (String.eqb next "neg"); [|discriminate].
      intros H. now apply (IH _ _ _ Hrest) in H.
Qed.

(** X28: what the argument processing of [main] lets through.  When it
    goes on to read the file, exactly one of the percentage and the isovalue
    mode is selected, the file name is [argv[1]], and the command line has
    an even number of at least four entries: every option came with a value
    of its own. *)
Theorem X28_parseArgs_accepts
        (stod : string -> option Q) (argv : list string) (o : Options) :
  parseArgs stod argv = ArgsOk o ->
  usePercentage o = negb (useIsovalue o)
  /\ cubeFilename o = nth 1 argv ""%string
  /\ (4 <= List.length argv)%nat
  /\ Nat.even (List.length argv) = true.
Proof.
  unfold parseArgs.
  destruct (List.length argv <? 4)%nat eqn:El; [discriminate|].
  apply Nat.ltb_ge in El.
  destruct (processArgs stod (skipn 2 argv) _) as [o'| |] eqn:Ep;
    try discriminate.
  destruct (Bool.eqb (usePercentage o') (useIsovalue o')) eqn:Eb;
    [discriminate|].
  intros [= <-].
  apply (processArgs_ok stod (List.length (skipn 2 argv))) in Ep
    as [Hf He]; [|lia].
  cbn [cubeFilename] in Hf.
  split; [|split; [exact Hf|split; [exact El|]]].
  - destruct (usePercentage o'), (useIsovalue o'); cbn in *; congruence.
  - destruct argv as [|a0 [|a1 rest]]; cbn in El; try lia.
    exact He.
Qed.

Lemma X28_parseArgs_accepts_witness :
  let argv := ["cubeisofinder"; "small.cube"; "-p"; "50"; "-s"; "neg"]%string in
  let o := mkOptions "small.cube" true false 50 false in
  parseArgs stodDecimal argv = ArgsOk o
  /\ usePercentage o = negb (useIsovalue o)
  /\ cubeFilename o = nth 1 argv ""%string
  /\ (4 <= List.length argv)%nat
  /\ Nat.even (List.length argv) = true.
Proof.
  cbv zeta.
  assert (H : parseArgs stodDecimal
                ["cubeisofinder"; "small.cube"; "-p"; "50"; "-s"; "neg"]%string
              = ArgsOk (mkOptions "small.cube" true false 50 false))
    by (vm_compute; reflexivity).
  split; [exact H|].
  exact (X28_parseArgs_accepts stodDecimal _ _ H).
Defined.
